(** * cm6206ctl: register transactions and bitfield decoding of the CM6206

    A shallow embedding of [cm6206ctl.c] (and of its earlier single-file
    version, which carries the [newvalue] helper): the HID report framing of
    [cm6206_read] / [cm6206_write], the register refresh loop
    [readAllRegisters], the [-INIT] and [-w] command blocks of [main], and
    the classification and label lookup of the register printout.

    Conventions.  C integers are [Z] with the conversions written out:
    [u8], [u16] and [u32] are the conversions to [uint8_t], [uint16_t] and
    [unsigned].  Operands of [&], [|], [~], [<<] and [>>] are promoted to
    [int] in C; on the 16-bit and 8-bit values that occur here the
    two's-complement operations of [Z] agree with the 32-bit ones.  The HID
    library is the environment: a device answers every call as a function of
    the calls made so far, and the program state records these calls. *)

From Stdlib Require Import ZArith Lia Bool.
From stdpp Require Import prelude strings pretty.

Local Open Scope Z_scope.

(** ** Fixed-width integers *)

Definition u8 (x : Z) : Z := Z.land x 0xFF.
Definition u16 (x : Z) : Z := Z.land x 0xFFFF.
Definition u32 (x : Z) : Z := Z.land x 0xFFFFFFFF.

Definition is_u8 (x : Z) : Prop := 0 <= x < 256.
Definition is_u16 (x : Z) : Prop := 0 <= x < 65536.

(** ** Global constants *)

Definition NUM_REGS : nat := 6.
Definition EXIT_FAILURE : Z := 1.

(** Default values for registers after reset. *)
Definition REG_DEFAULT : list Z :=
  [0x2000; 0x3002; 0x6004; 0x147f; 0x0000; 0x3000].

(** Register values for initialization. *)
Definition REG_INIT : list Z :=
  [0x2004; 0x3000; 0xF800; 0x147f; 0x0000; 0x3000].

(** ** Masked read-modify-write

    [newvalue] is the helper of the early version of the program;
    [main] of [cm6206ctl.c] computes the same expression in line, with
    [regbuf[cfg.reg]], [cfg.mask] and [cfg.writeVal] as operands. *)

Definition newvalue (oldvalue newmask newbits : Z) : Z :=
  u16 (Z.lor (Z.land oldvalue (Z.lnot newmask)) (Z.land newbits newmask)).

(** The complement of a mask within 16 bits. *)
Definition not16 (mask : Z) : Z := Z.lxor mask 0xFFFF.

(** ** The HID transport

    Every call of [hid_write] and [hid_read] is an event; the program state
    is the list of events so far, oldest first. *)

Inductive event : Type :=
  | Write (frame : list Z) (ret : Z)
      (* hid_write(dev, frame, sizeof frame) returned ret *)
  | Read (len : Z) (ret : Z) (data : list Z).
      (* hid_read(dev, buf, len) returned ret and delivered data *)

Definition trace : Type := list event.

(** The device with its driver: the answer to a call depends on the history
    and on the arguments only. *)
Record hid_device : Type := HidDevice {
  write_answer : trace -> list Z -> Z;
  read_answer : trace -> Z -> Z * list Z
}.

(** Why the process ended in [err]: the register named in the message. *)
Inductive failure : Type :=
  | ReadFailed (reg : nat)
  | WriteFailed (reg : nat).

(** A computation either returns to its caller or ends the process through
    [err(status, ...)]; in both cases the transport has seen a trace. *)
Inductive outcome (A : Type) : Type :=
  | Ret (a : A) (t : trace)
  | Exited (status : Z) (why : failure) (t : trace).
Arguments Ret {A} a t.
Arguments Exited {A} status why t.

Definition io (A : Type) : Type := trace -> outcome A.

Definition ret {A} (a : A) : io A := fun t => Ret a t.

Definition bind {A B} (k : A -> io B) (m : io A) : io B :=
  fun t =>
    match m t with
    | Ret a t' => k a t'
    | Exited status why t' => Exited status why t'
    end.

Definition err {A} (status : Z) (why : failure) : io A :=
  fun t => Exited status why t.

(** [x ← m; k] sequences two computations; an exit ends the sequence. *)
#[global] Instance io_ret : MRet io := @ret.
#[global] Instance io_bind : MBind io := @bind.

Definition trace_of {A} (o : outcome A) : trace :=
  match o with
  | Ret _ t => t
  | Exited _ _ t => t
  end.

(** [hid_read] stores the delivered bytes at the front of the caller's
    buffer, never past its end. *)
Fixpoint store_bytes (buf data : list Z) : list Z :=
  match buf, data with
  | _ :: buf', d :: data' => u8 d :: store_bytes buf' data'
  | _, _ => buf
  end.

Definition hid_write (dev : hid_device) (buf : list Z) : io Z :=
  fun t =>
    let r := write_answer dev t buf in
    Ret r (t ++ [Write buf r]).

Definition hid_read (dev : hid_device) (buf : list Z) (len : Z) : io (Z * list Z) :=
  fun t =>
    let '(r, data) := read_answer dev t len in
    Ret (r, store_bytes buf (take (Z.to_nat len) data))
        (t ++ [Read len r data]).

(** [buf[i]] for an index within the buffer. *)
Definition byte_at (buf : list Z) (i : nat) : Z := default 0 (buf !! i).

(** ** Register transactions *)

(** The report of a read request, as [cm6206_read] initialises [buf]. *)
Definition read_request (regnum : Z) : list Z :=
  [0x00;      (* USB Report ID *)
   0x30;      (* 0x30 = read, 0x20 = write *)
   0x00;      (* DATAL *)
   0x00;      (* DATAH *)
   u8 regnum  (* Register address *)].

(** The report of a write request, as [cm6206_write] initialises [buf]. *)
Definition write_request (regnum value : Z) : list Z :=
  [0x00;
   0x20;
   u8 (Z.land value 0xff);   (* DATAL *)
   u8 (Z.shiftr value 8);    (* DATAH *)
   u8 regnum].

(** The guard [buf[0] & 0xe0 != 0x20]: [!=] binds tighter than [&], and a
    comparison has the value 0 or 1. *)
Definition marker_guard (buf : list Z) : bool :=
  negb (Z.land (byte_at buf 0) (Z.b2z (negb (0xe0 =? 0x20))) =? 0).

(** The guard the comment next to it describes: [(buf[0] & 0xe0) != 0x20]. *)
Definition intended_marker_guard (buf : list Z) : bool :=
  negb (Z.land (byte_at buf 0) 0xe0 =? 0x20).

(** [(((uint16_t)buf[2]) << 8) | buf[1]], stored into a [uint16_t]. *)
Definition decode_value (buf : list Z) : Z :=
  u16 (Z.lor (Z.shiftl (u16 (byte_at buf 2)) 8) (byte_at buf 1)).

(** [cm6206_read(dev, regnum, value)]: [value] is what [*value] holds at the
    call; the result pairs the returned [int] with what [*value] holds at
    the return. *)
Definition cm6206_read (dev : hid_device) (regnum : Z) (value : Z) : io (Z * Z) :=
  let buf := read_request regnum in
  n ← hid_write dev buf;
  if negb (n =? 5) then ret (-1, value) else
  '(n, buf) ← hid_read dev buf 5;
  if negb (n =? 3) then ret (-2, value) else
  if marker_guard buf then ret (-3, value) else
  ret (0, decode_value buf).

Definition cm6206_write (dev : hid_device) (regnum : Z) (value : Z) : io Z :=
  let buf := write_request regnum value in
  n ← hid_write dev buf;
  if negb (n =? 5) then ret (-1) else
  ret 0.

(** ** Loops over the registers *)

(** [for (int n = start; ...; n++)] with [count] iterations left; [s] is the
    state the body updates. *)
Fixpoint for_regs {St : Type} (body : nat -> St -> io St) (start count : nat)
    (s : St) : io St :=
  match count with
  | O => ret s
  | S count' => s' ← body start s; for_regs body (S start) count' s'
  end.

(** One iteration of [readAllRegisters]: [cm6206_read] writes through
    [&regbuf[n]], then the result is tested. *)
Definition read_register (dev : hid_device) (n : nat) (regbuf : list Z) : io (list Z) :=
  '(r, v) ← cm6206_read dev (Z.of_nat n) (default 0 (regbuf !! n));
  let regbuf := <[n := v]> regbuf in
  if r <? 0 then err EXIT_FAILURE (ReadFailed n) else ret regbuf.

(** Refresh global register buffer (regbuf). *)
Definition readAllRegisters (dev : hid_device) (regbuf : list Z) : io (list Z) :=
  for_regs (read_register dev) 0 NUM_REGS regbuf.

(** One iteration of the [-INIT] loop of [main]. *)
Definition init_register (dev : hid_device) (n : nat) (regbuf : list Z) : io (list Z) :=
  r ← cm6206_write dev (Z.of_nat n) (default 0 (REG_INIT !! n));
  if r <? 0 then err EXIT_FAILURE (WriteFailed n) else ret regbuf.

(** The body of [if (cfg.cmdInit)] in [main] (the progress message apart). *)
Definition cmd_init (dev : hid_device) (regbuf : list Z) : io (list Z) :=
  regbuf ← for_regs (init_register dev) 0 NUM_REGS regbuf;
  readAllRegisters dev regbuf.

(** The body of [if (cfg.cmdWrite)] in [main] (the progress message apart). *)
Definition cmd_write (dev : hid_device) (reg : nat) (writeVal mask : Z)
    (regbuf : list Z) : io (list Z) :=
  let newvalue := newvalue (default 0 (regbuf !! reg)) mask writeVal in
  r ← cm6206_write dev (Z.of_nat reg) newvalue;
  if r <? 0 then err EXIT_FAILURE (WriteFailed reg) else
  readAllRegisters dev regbuf.

(** ** Printout of registers

    The printing functions are modelled by what they print: a field line
    carries whether the field is at its reset value (the line is printed
    bold when it is not), the bit positions shown in brackets, the label and
    the value text.  The escape sequences and the legend that [-v] appends
    to the value text are left out. *)

(** Tuple for list of value/label pairs. Last tuple in list must have value
    -1 and a default label. *)
Record ValLabel : Type := VL { val : Z; label : string }.

Record field_line : Type := FieldLine {
  line_isdefault : bool;
  line_lastbit : Z;
  line_firstbit : Z;
  line_label : string;
  line_valuetxt : string
}.

Definition reg_default (regnum : nat) : Z := default 0 (REG_DEFAULT !! regnum).

(** The header of a register: [true] when the raw value is the reset value
    (the raw value is printed bold when it is not). *)
Definition print_reg_header (regnum : nat) (regval : Z) : bool :=
  regval =? reg_default regnum.

(** [regval>>bit & 1] *)
Definition bit_value (regval bit : Z) : Z := Z.land (Z.shiftr regval bit) 1.

(** Print value of bit in register with provided label. *)
Definition print_reg_bit_special (regnum : nat) (regval bit : Z)
    (label valuetxt : string) : field_line :=
  let isdefault := bit_value regval bit =? bit_value (reg_default regnum) bit in
  FieldLine isdefault bit bit label valuetxt.

(** Print value of bit in register with provided on/off labels. *)
Definition print_reg_bit_txt (regnum : nat) (regval bit : Z)
    (label ontxt offtxt : string) : field_line :=
  let statetxt := if negb (bit_value regval bit =? 0) then ontxt else offtxt in
  print_reg_bit_special regnum regval bit label statetxt.

(** Print value of bit in register with default on/off labels. *)
Definition print_reg_bit_def (regnum : nat) (regval bit : Z) (label : string)
    : field_line :=
  print_reg_bit_txt regnum regval bit label "Yes" "No".

(** [unsigned mask = 0xFFFF >> (16-numbits)] *)
Definition field_mask (numbits : Z) : Z := Z.shiftr 0xFFFF (u32 (16 - numbits)).

(** [regval>>firstbit & mask] *)
Definition field_value (regval firstbit mask : Z) : Z :=
  Z.land (Z.shiftr regval firstbit) mask.

(** Print value of a bit range in register with provided label; [None] when
    one of the two assertions fails and the process aborts. *)
Definition print_reg_bit_range (regnum : nat) (regval firstbit numbits : Z)
    (label valuetxt : string) : option field_line :=
  if negb (1 <? numbits) then None else
  if negb (u32 (firstbit + numbits) <=? 16) then None else
  let mask := field_mask numbits in
  let isdefault :=
    field_value regval firstbit mask
      =? field_value (reg_default regnum) firstbit mask in
  Some (FieldLine isdefault (u32 (firstbit + numbits - 1)) firstbit label valuetxt).

(** The first loop of [print_reg_bit_range_label] and the choice of the
    default label after it: [labels] is the rest of the table from index
    [n] on, [valuetxt] the pointer found so far ([None] for [NULL]).  The
    loop runs to the entry with a negative value; a table without one is
    read past its end ([None]). *)
Fixpoint scan_labels (labels : list ValLabel) (x : Z) (valuetxt : option string)
    : option string :=
  match labels with
  | [] => None
  | e :: rest =>
      if 0 <=? val e then
        scan_labels rest x (if val e =? x then Some (label e) else valuetxt)
      else
        Some (default (label e) valuetxt)   (* Choose -1 as default label *)
  end.

(** Print value of a bit range in register with provided labels. *)
Definition print_reg_bit_range_label (regnum : nat) (regval firstbit numbits : Z)
    (label : string) (labels : list ValLabel) : option field_line :=
  let mask := field_mask numbits in
  valuetxt ← scan_labels labels (field_value regval firstbit mask) None;
  print_reg_bit_range regnum regval firstbit numbits label valuetxt.

(** [sprintf(sbuf, "%u", x)] *)
Definition decimal (x : Z) : string := pretty x.

Definition SPDIF_OUT_HZ : list ValLabel :=
  [VL 0 "44.1 kHz";
   VL 2 "48 kHz";
   VL 3 "32 kHz";
   VL 6 "96 kHz";
   VL (-1) "Reserved"].

Definition print_cm6202_reg0 (val : Z) : bool * list (option field_line) :=
  (print_reg_header 0 val,
   [Some (print_reg_bit_txt 0 val 15 "DMA Master" "SPDIF Out" "DAC");
    print_reg_bit_range_label 0 val 12 3 "SPDIF Out sample rate" SPDIF_OUT_HZ;
    print_reg_bit_range 0 val 4 8 "Category code" (decimal (Z.land (Z.shiftr val 4) 0xFF));
    Some (print_reg_bit_txt 0 val 3 "Emphasis" "CD_Type" "None");
    Some (print_reg_bit_txt 0 val 2 "Copyright" "Not Asserted" "Asserted");
    Some (print_reg_bit_txt 0 val 1 "Non-audio" "non-PCM (e.g. AC3)" "PCM");
    Some (print_reg_bit_txt 0 val 0 "Professional/Consumer" "Professional" "Consumer")]).

Definition print_cm6202_reg1 (val : Z) : bool * list (option field_line) :=
  (print_reg_header 1 val,
   [Some (print_reg_bit_special 1 val 15 "<Reserved>" EmptyString);
    Some (print_reg_bit_txt 1 val 14 "SEL Clk (test)" "22.58 MHz" "24.576 MHz");
    Some (print_reg_bit_def 1 val 13 "PLL binary search Enable");
    Some (print_reg_bit_def 1 val 12 "Soft Mute Enable");
    Some (print_reg_bit_def 1 val 11 "GPIO4 Out Status");
    Some (print_reg_bit_def 1 val 10 "GPIO4 Out Enable");
    Some (print_reg_bit_def 1 val 9 "GPIO3 Out Status");
    Some (print_reg_bit_def 1 val 8 "GPIO3 Out Enable");
    Some (print_reg_bit_def 1 val 7 "GPIO2 Out Status");
    Some (print_reg_bit_def 1 val 6 "GPIO2 Out Enable");
    Some (print_reg_bit_def 1 val 5 "GPIO1 Out Status");
    Some (print_reg_bit_def 1 val 4 "GPIO1 Out Enable");
    Some (print_reg_bit_def 1 val 3 "SPDIF Out Valid");
    Some (print_reg_bit_def 1 val 2 "SPDIF Loop-back Enable");
    Some (print_reg_bit_def 1 val 1 "SPDIF Out Disable");
    Some (print_reg_bit_def 1 val 0 "SPDIF In Mix Enable")]).

Definition HEADPHONE_SOURCES : list ValLabel :=
  [VL 0 "Side";
   VL 1 "Rear";
   VL 2 "Center/Subwoofer";
   VL 3 "Front";
   VL (-1) "<Reserved>"].

Definition MCU_CLK_FREQS : list ValLabel :=
  [VL 0 "1.5 MHz";
   VL 1 "3 MHz";
   VL (-1) "<Reserved>"].

Definition print_cm6202_reg2 (val : Z) : bool * list (option field_line) :=
  (print_reg_header 2 val,
   [Some (print_reg_bit_def 2 val 15 "Driver On");
    print_reg_bit_range_label 2 val 13 2 "Headphone Source channels" HEADPHONE_SOURCES;
    Some (print_reg_bit_def 2 val 12 "Mute Headphone Right");
    Some (print_reg_bit_def 2 val 11 "Mute Headphone Left");
    Some (print_reg_bit_def 2 val 10 "Mute Rear Surround Right");
    Some (print_reg_bit_def 2 val 9 "Mute Rear Surround Left");
    Some (print_reg_bit_def 2 val 8 "Mute Side Surround Right");
    Some (print_reg_bit_def 2 val 7 "Mute Side Surround Left");
    Some (print_reg_bit_def 2 val 6 "Mute Subwoofer");
    Some (print_reg_bit_def 2 val 5 "Mute Center");
    Some (print_reg_bit_def 2 val 4 "Mute Front Right");
    Some (print_reg_bit_def 2 val 3 "Mute Front Left");
    Some (print_reg_bit_def 2 val 2 "BTL mode enable");
    print_reg_bit_range_label 2 val 0 2 "MCU Clock Frequency" MCU_CLK_FREQS]).

Definition SPDIF_IN_HZ : list ValLabel :=
  [VL 0 "44.1 kHz";
   VL 2 "48 kHz";
   VL 3 "32 kHz";
   VL (-1) "Reserved"].

Definition print_cm6202_reg3 (val : Z) : bool * list (option field_line) :=
  (print_reg_header 3 val,
   [print_reg_bit_range 3 val 14 2 "<Reserved>" EmptyString;
    print_reg_bit_range 3 val 11 2 "Sensitivity to FLY tuner volume" (decimal (Z.land (Z.shiftr val 11) 7));
    Some (print_reg_bit_txt 3 val 10 "Microphone bias voltage" "2.25 V" "4.5 V");
    Some (print_reg_bit_txt 3 val 9 "Mix MIC/Line In to" "All 8 Channels" "Front Out Only");
    print_reg_bit_range_label 3 val 7 2 "SPDIF In sample rate" SPDIF_IN_HZ;
    Some (print_reg_bit_txt 3 val 6 "Package size" "48 pins" "100 pins");
    Some (print_reg_bit_def 3 val 5 "Front Out Enable");
    Some (print_reg_bit_def 3 val 4 "Rear Out Enable");
    Some (print_reg_bit_def 3 val 3 "Center Out Enable");
    Some (print_reg_bit_def 3 val 2 "Line Out Enable");
    Some (print_reg_bit_def 3 val 1 "Headphone Out Enable");
    Some (print_reg_bit_def 3 val 0 "SPDIF In can be recorded")]).

Definition print_cm6202_reg4 (val : Z) : bool * list (option field_line) :=
  (print_reg_header 4 val,
   [Some (print_reg_bit_def 4 val 15 "GPIO12 Out Status");
    Some (print_reg_bit_def 4 val 14 "GPIO12 Out Enable");
    Some (print_reg_bit_def 4 val 13 "GPIO11 Out Status");
    Some (print_reg_bit_def 4 val 12 "GPIO11 Out Enable");
    Some (print_reg_bit_def 4 val 11 "GPIO10 Out Status");
    Some (print_reg_bit_def 4 val 10 "GPIO10 Out Enable");
    Some (print_reg_bit_def 4 val 9 "GPIO9 Out Status");
    Some (print_reg_bit_def 4 val 8 "GPIO9 Out Enable");
    Some (print_reg_bit_def 4 val 7 "GPIO8 Out Status");
    Some (print_reg_bit_def 4 val 6 "GPIO8 Out Enable");
    Some (print_reg_bit_def 4 val 5 "GPIO7 Out Status");
    Some (print_reg_bit_def 4 val 4 "GPIO7 Out Enable");
    Some (print_reg_bit_def 4 val 3 "GPIO6 Out Status");
    Some (print_reg_bit_def 4 val 2 "GPIO6 Out Enable");
    Some (print_reg_bit_def 4 val 1 "GPIO5 Out Enable");
    Some (print_reg_bit_def 4 val 0 "GPIO5 Out Status")]).

Definition SPDIF_OUT_CHANNELS : list ValLabel :=
  [VL 0 "Front";
   VL 1 "Side";
   VL 2 "Center";
   VL 3 "Rear";
   VL (-1) "<Reserved>"].

Definition AD_FILTER_SOURCES : list ValLabel :=
  [VL 0 "Normal";
   VL 4 "Front";
   VL 5 "Side";
   VL 6 "Center";
   VL 7 "Rear";
   VL (-1) "<Reserved>"].

Definition print_cm6202_reg5 (val : Z) : bool * list (option field_line) :=
  (print_reg_header 5 val,
   [print_reg_bit_range 5 val 14 2 "<Reserved>" EmptyString;
    Some (print_reg_bit_def 5 val 13 "DAC Not Reset");
    Some (print_reg_bit_def 5 val 12 "ADC Not Reset");
    Some (print_reg_bit_def 5 val 11 "ADC to SPDIF Out");
    print_reg_bit_range_label 5 val 9 2 "SPDIF Out select" SPDIF_OUT_CHANNELS;
    Some (print_reg_bit_txt 5 val 8 "USB/CODEC Mode" "CODEC" "USB");
    Some (print_reg_bit_def 5 val 7 "DAC high pass filter");
    Some (print_reg_bit_def 5 val 6 "Loopback ADC to Rear DAC");
    Some (print_reg_bit_def 5 val 5 "Loopback ADC to Center DAC");
    Some (print_reg_bit_def 5 val 4 "Loopback ADC to Side DAC");
    Some (print_reg_bit_def 5 val 3 "Loopback ADC to Front DAC");
    print_reg_bit_range_label 5 val 0 3 "Input source to AD digital filter" AD_FILTER_SOURCES]).

(** ** Vocabulary of the properties *)

(** [a] and [b] agree on the [n] bits from bit [lo] upwards. *)
Definition same_bits (a b lo n : Z) : Prop :=
  forall i, lo <= i < lo + n -> Z.testbit a i = Z.testbit b i.

(** The printout of all registers ([-A]), as [main] calls it. *)
Definition cmd_print_all (regbuf : list Z) : list (bool * list (option field_line)) :=
  [print_cm6202_reg0 (default 0 (regbuf !! 0%nat));
   print_cm6202_reg1 (default 0 (regbuf !! 1%nat));
   print_cm6202_reg2 (default 0 (regbuf !! 2%nat));
   print_cm6202_reg3 (default 0 (regbuf !! 3%nat));
   print_cm6202_reg4 (default 0 (regbuf !! 4%nat));
   print_cm6202_reg5 (default 0 (regbuf !! 5%nat))].

(** What a computation hands back to its caller, if it returns. *)
Definition returned {A} (o : outcome A) : option A :=
  match o with
  | Ret a _ => Some a
  | Exited _ _ _ => None
  end.

(** *** One read transaction, seen from the transport

    The answers of the device to the read transaction of [regnum] that
    starts after the trace [t]. *)

Definition sent_count (dev : hid_device) (regnum : Z) (t : trace) : Z :=
  write_answer dev t (read_request regnum).

Definition after_send (dev : hid_device) (regnum : Z) (t : trace) : trace :=
  t ++ [Write (read_request regnum) (sent_count dev regnum t)].

Definition received_count (dev : hid_device) (regnum : Z) (t : trace) : Z :=
  (read_answer dev (after_send dev regnum t) 5).1.

Definition received_data (dev : hid_device) (regnum : Z) (t : trace) : list Z :=
  (read_answer dev (after_send dev regnum t) 5).2.

Definition after_receive (dev : hid_device) (regnum : Z) (t : trace) : trace :=
  after_send dev regnum t
    ++ [Read 5 (received_count dev regnum t) (received_data dev regnum t)].

(** The report buffer of [cm6206_read] after [hid_read]. *)
Definition reply_buf (dev : hid_device) (regnum : Z) (t : trace) : list Z :=
  store_bytes (read_request regnum) (take 5 (received_data dev regnum t)).

(** *** Shapes of transactions in a trace *)

(** A read of register [n] that delivered [v]. *)
Definition read_ok (n : nat) (evs : list event) (v : Z) : Prop :=
  exists data,
    evs = [Write (read_request (Z.of_nat n)) 5; Read 5 3 data]
    /\ marker_guard (store_bytes (read_request (Z.of_nat n)) (take 5 data)) = false
    /\ v = decode_value (store_bytes (read_request (Z.of_nat n)) (take 5 data)).

(** A read of register [n] that failed: at the send, or at the receive, or
    at the guard. *)
Definition read_failed (n : nat) (evs : list event) : Prop :=
  (exists w, w <> 5 /\ evs = [Write (read_request (Z.of_nat n)) w])
  \/ (exists r data,
        evs = [Write (read_request (Z.of_nat n)) 5; Read 5 r data]
        /\ (r <> 3
            \/ marker_guard (store_bytes (read_request (Z.of_nat n)) (take 5 data))
               = true)).

(** The report that [-INIT] writes for register [n]. *)
Definition init_request (n : nat) : list Z :=
  write_request (Z.of_nat n) (default 0 (REG_INIT !! n)).

(** The writes of [-INIT] for [count] registers from [start] on, each
    transferred whole; [init_writes k] are the first [k] of them. *)
Definition init_writes_from (start count : nat) : list event :=
  (fun n => Write (init_request n) 5) <$> seq start count.

Definition init_writes (k : nat) : list event := init_writes_from 0 k.

(** A transaction in the shape "one report of five bytes sent, then one
    receive". *)
Definition send_then_receive (evs : list event) : Prop :=
  exists frame w len r data,
    length frame = 5%nat /\ evs = [Write frame w; Read len r data].

(** *** Label tables *)

(** The label of the first entry of value [x]. *)
Definition first_match (entries : list ValLabel) (x : Z) : option string :=
  label <$> List.find (fun e => val e =? x) entries.

(** The value text the loop of [print_reg_bit_range_label] holds after the
    entries [entries], when it held [valuetxt] before them. *)
Definition after_entries (x : Z) (valuetxt : option string) (entries : list ValLabel)
    : option string :=
  foldl (fun found e => if val e =? x then Some (label e) else found) valuetxt entries.

(** *** Devices for the examples *)

(** The register a read request addressed, if the last event is a report. *)
Definition addressed (t : trace) : nat :=
  match last t with
  | Some (Write frame _) => Z.to_nat (byte_at frame 4)
  | _ => 0%nat
  end.

(** A codec with the register contents [regs]: every report is transferred
    whole; a receive delivers [count] bytes of status byte, low byte, high
    byte and padding. *)
Definition codec_reply (status count : Z) (regs : list Z) : hid_device :=
  {| write_answer := fun _ frame => Z.of_nat (length frame);
     read_answer := fun t _ =>
       let v := default 0 (regs !! addressed t) in
       (count,
        take (Z.to_nat count) [status; Z.land v 0xFF; Z.shiftr v 8; 0; 0]) |}.

(** The codec as the program expects it: three bytes, marker 0x20. *)
Definition codec (regs : list Z) : hid_device := codec_reply 0x20 3 regs.

Definition is_write (e : event) : bool :=
  match e with Write _ _ => true | Read _ _ _ => false end.

Definition writes_in (t : trace) : nat := length (List.filter is_write t).

Definition reads_in (t : trace) : nat :=
  length (List.filter (fun e => negb (is_write e)) t).

(** [dev], except that the send number [k] (from 0) transfers nothing. *)
Definition write_fails_at (k : nat) (dev : hid_device) : hid_device :=
  {| write_answer := fun t frame =>
       if decide (writes_in t = k) then -1 else write_answer dev t frame;
     read_answer := read_answer dev |}.

(** [dev], except that the receive number [k] (from 0) fails. *)
Definition read_fails_at (k : nat) (dev : hid_device) : hid_device :=
  {| write_answer := write_answer dev;
     read_answer := fun t len =>
       if decide (reads_in t = k) then (-1, []) else read_answer dev t len |}.

(** *** Printed lines *)

(** The line classifies its field by the bits it names: it counts as
    default exactly when the raw value and the reset value of the register
    agree on the bits [line_firstbit] to [line_lastbit]. *)
Definition classified (regnum : nat) (regval : Z) (ol : option field_line) : Prop :=
  exists line,
    ol = Some line
    /\ 0 <= line_firstbit line <= line_lastbit line
    /\ line_lastbit line < 16
    /\ (line_isdefault line = true
        <-> same_bits regval (reg_default regnum) (line_firstbit line)
              (line_lastbit line - line_firstbit line + 1)).

(** The tables of labels of the program. *)
Definition label_tables : list (list ValLabel) :=
  [SPDIF_OUT_HZ; HEADPHONE_SOURCES; MCU_CLK_FREQS; SPDIF_IN_HZ;
   SPDIF_OUT_CHANNELS; AD_FILTER_SOURCES].

(** A table of labels as the program declares them: entries of values from
    0 up, no value twice, closed by one entry of negative value. *)
Definition declared_table (labels : list ValLabel) : Prop :=
  exists entries sentinel,
    labels = entries ++ [sentinel]
    /\ Forall (fun e => 0 <= val e) entries
    /\ val sentinel < 0
    /\ NoDup (val <$> entries).

(** *** Layout of a printout *)

(** The bits a printed line names: the last and the first one. *)
Definition line_span (ol : option field_line) : option (Z * Z) :=
  (fun line => (line_lastbit line, line_firstbit line)) <$> ol.

(** The line was printed, and not in bold. *)
Definition printed_default (ol : option field_line) : Prop :=
  line_isdefault <$> ol = Some true.

(** The spans cover the bits from [top] down to [bottom], each bit once,
    in this order. *)
Fixpoint tiles (top bottom : Z) (spans : list (option (Z * Z))) : Prop :=
  match spans with
  | [] => top = bottom - 1
  | Some (hi, lo) :: rest =>
      hi = top /\ bottom <= lo <= hi /\ tiles (lo - 1) bottom rest
  | None :: _ => False
  end.

(** The spans lie at or below [top], above bit 0 or on it, each below the
    one before: no bit belongs to two of them. *)
Fixpoint descending (top : Z) (spans : list (option (Z * Z))) : Prop :=
  match spans with
  | [] => True
  | Some (hi, lo) :: rest =>
      hi <= top /\ 0 <= lo <= hi /\ descending (lo - 1) rest
  | None :: _ => False
  end.

(** ** The command line and [main] *)

(** Configuration values. *)
Record config : Type := Config {
  cfg_verbose : bool;
  cfg_quiet : bool;
  cfg_cmdPrintAll : bool;
  cfg_cmdRead : bool;
  cfg_reg : Z;
  cfg_cmdWrite : bool;
  cfg_writeVal : Z;
  cfg_mask : Z;
  cfg_cmdInit : bool
}.

(** [cfg = {0, .mask=0xFFFF}] *)
Definition cfg_initial : config :=
  Config false false false false 0 false 0 0xFFFF false.

Definition set_verbose (c : config) : config :=
  Config true (cfg_quiet c) (cfg_cmdPrintAll c) (cfg_cmdRead c) (cfg_reg c)
    (cfg_cmdWrite c) (cfg_writeVal c) (cfg_mask c) (cfg_cmdInit c).
Definition set_quiet (c : config) : config :=
  Config (cfg_verbose c) true (cfg_cmdPrintAll c) (cfg_cmdRead c) (cfg_reg c)
    (cfg_cmdWrite c) (cfg_writeVal c) (cfg_mask c) (cfg_cmdInit c).
Definition set_cmdPrintAll (c : config) : config :=
  Config (cfg_verbose c) (cfg_quiet c) true (cfg_cmdRead c) (cfg_reg c)
    (cfg_cmdWrite c) (cfg_writeVal c) (cfg_mask c) (cfg_cmdInit c).
Definition set_cmdRead (c : config) : config :=
  Config (cfg_verbose c) (cfg_quiet c) (cfg_cmdPrintAll c) true (cfg_reg c)
    (cfg_cmdWrite c) (cfg_writeVal c) (cfg_mask c) (cfg_cmdInit c).
Definition set_reg (lval : Z) (c : config) : config :=
  Config (cfg_verbose c) (cfg_quiet c) (cfg_cmdPrintAll c) (cfg_cmdRead c) lval
    (cfg_cmdWrite c) (cfg_writeVal c) (cfg_mask c) (cfg_cmdInit c).
Definition set_cmdWrite (c : config) : config :=
  Config (cfg_verbose c) (cfg_quiet c) (cfg_cmdPrintAll c) (cfg_cmdRead c) (cfg_reg c)
    true (cfg_writeVal c) (cfg_mask c) (cfg_cmdInit c).
Definition set_writeVal (lval : Z) (c : config) : config :=
  Config (cfg_verbose c) (cfg_quiet c) (cfg_cmdPrintAll c) (cfg_cmdRead c) (cfg_reg c)
    (cfg_cmdWrite c) lval (cfg_mask c) (cfg_cmdInit c).
Definition set_mask (lval : Z) (c : config) : config :=
  Config (cfg_verbose c) (cfg_quiet c) (cfg_cmdPrintAll c) (cfg_cmdRead c) (cfg_reg c)
    (cfg_cmdWrite c) (cfg_writeVal c) lval (cfg_cmdInit c).
Definition set_cmdInit (c : config) : config :=
  Config (cfg_verbose c) (cfg_quiet c) (cfg_cmdPrintAll c) (cfg_cmdRead c) (cfg_reg c)
    (cfg_cmdWrite c) (cfg_writeVal c) (cfg_mask c) true.

(** The parsing of the command line returns with the configuration set, or
    ends the process: with status 0 after the help text, with
    [EXIT_FAILURE] through [err]. *)
Inductive parsed : Type :=
  | Parsed (c : config)
  | ParseExit (status : Z).

Section CommandLine.

(** [strtol(s, NULL, 0)] of the C library. *)
Variable strtol : string -> Z.

(** The loop of [parseArgumentsToConfig] over [argv[argn]], ..., with
    [cfg] as the configuration so far.  A value stored into [cfg.mask],
    [cfg.reg] or [cfg.writeVal] has passed the range test before it, so
    the conversion to the type of the field leaves it as it is. *)
Fixpoint parseArgumentsToConfig (args : list string) (cfg : config) : parsed :=
  match args with
  | [] => Parsed cfg
  | arg :: rest =>
      if String.eqb arg "-A" then
        parseArgumentsToConfig rest (set_cmdPrintAll cfg)
      else if String.eqb arg "-h" then
        ParseExit 0
      else if String.eqb arg "-m" then
        match rest with
        | [] => ParseExit EXIT_FAILURE        (* -m too few arguments *)
        | value :: rest =>
            let lval := strtol value in
            if (lval <? 0) || (0xFFFF <? lval) then ParseExit EXIT_FAILURE
            else parseArgumentsToConfig rest (set_mask lval cfg)
        end
      else if String.eqb arg "-q" then
        parseArgumentsToConfig rest (set_quiet cfg)
      else if String.eqb arg "-r" then
        match rest with
        | [] => ParseExit 1                   (* -r too few arguments *)
        | value :: rest =>
            let lval := strtol value in
            if (lval <? 0) || (Z.of_nat NUM_REGS - 1 <? lval)
            then ParseExit EXIT_FAILURE
            else parseArgumentsToConfig rest (set_cmdRead (set_reg lval cfg))
        end
      else if String.eqb arg "-v" then
        parseArgumentsToConfig rest (set_verbose cfg)
      else if String.eqb arg "-w" then
        match rest with
        | [] => ParseExit 1                   (* -w too few arguments *)
        | value :: rest =>
            let lval := strtol value in
            if (lval <? 0) || (0xFFFF <? lval) then ParseExit EXIT_FAILURE
            else parseArgumentsToConfig rest (set_cmdWrite (set_writeVal lval cfg))
        end
      else if String.eqb arg "-DMADAC" then
        parseArgumentsToConfig rest
          (set_cmdWrite (set_writeVal 0x0000 (set_mask 0x8000 (set_reg 0 cfg))))
      else if String.eqb arg "-DMASPDIF" then
        parseArgumentsToConfig rest
          (set_cmdWrite (set_writeVal 0x8000 (set_mask 0x8000 (set_reg 0 cfg))))
      else if String.eqb arg "-INIT" then
        parseArgumentsToConfig rest (set_cmdInit cfg)
      else
        ParseExit EXIT_FAILURE                (* Unknown argument *)
  end.

End CommandLine.

(** What [main] prints besides its messages: the masked value of [-r] and
    the printout of [-A]. *)
Record output : Type := Output {
  out_regbuf : list Z;
  out_read : option Z;
  out_print_all : option (list (bool * list (option field_line)))
}.

(** [main] from the first refresh of the register buffer on, with the
    device open and the register buffer cleared. *)
Definition main_commands (cfg : config) (dev : hid_device) : io output :=
  (* Start by reading all registers *)
  regbuf ← readAllRegisters dev [0; 0; 0; 0; 0; 0];
  regbuf ← (if cfg_cmdInit cfg then cmd_init dev regbuf else ret regbuf);
  regbuf ← (if cfg_cmdWrite cfg
            then cmd_write dev (Z.to_nat (cfg_reg cfg)) (cfg_writeVal cfg)
                   (cfg_mask cfg) regbuf
            else ret regbuf);
  ret (Output regbuf
         (if cfg_cmdRead cfg
          then Some (Z.land (default 0 (regbuf !! Z.to_nat (cfg_reg cfg)))
                       (cfg_mask cfg))
          else None)
         (if cfg_cmdPrintAll cfg then Some (cmd_print_all regbuf) else None)).

(** The numbers of the command lines in the examples, for a [strtol]. *)
Definition strtol_of_examples (s : string) : Z :=
  if String.eqb s "0" then 0
  else if String.eqb s "2" then 2
  else if String.eqb s "0x8000" then 0x8000
  else if String.eqb s "0x0000" then 0x0000
  else if String.eqb s "0x6000" then 0x6000
  else if String.eqb s "70000" then 70000
  else 0.

(** A configuration whose register, mask and value are in their ranges. *)
Definition config_in_range (c : config) : Prop :=
  0 <= cfg_reg c < Z.of_nat NUM_REGS /\ is_u16 (cfg_mask c) /\ is_u16 (cfg_writeVal c).

(** The options that take no value and end nothing. *)
Definition is_flag (arg : string) : bool :=
  String.eqb arg "-A" || String.eqb arg "-q" || String.eqb arg "-v"
  || String.eqb arg "-DMADAC" || String.eqb arg "-DMASPDIF"
  || String.eqb arg "-INIT".

(** The options of the program. *)
Definition is_option (arg : string) : bool :=
  is_flag arg || String.eqb arg "-h" || String.eqb arg "-m"
  || String.eqb arg "-r" || String.eqb arg "-w".

(** A report that asks for a register, as opposed to one that sets it. *)
Definition is_read_request (e : event) : Prop :=
  match e with
  | Write frame _ => byte_at frame 1 = 0x30
  | Read _ _ _ => True
  end.

(** *** A codec that keeps what is written to it *)

(** The effect of one event on the registers of the codec: a write report
    sets the register it names to the value it carries. *)
Definition apply_report (regs : list Z) (e : event) : list Z :=
  match e with
  | Write frame _ =>
      if byte_at frame 1 =? 0x20
      then <[Z.to_nat (byte_at frame 4) := byte_at frame 2 + 256 * byte_at frame 3]> regs
      else regs
  | Read _ _ _ => regs
  end.

(** The registers of a codec that started with [regs], after the trace. *)
Definition hw_regs (regs : list Z) (t : trace) : list Z := foldl apply_report regs t.

(** A codec as a register file: every report is transferred whole, and a
    receive delivers the marker 0x20 and the value that the register
    addressed by the last report holds at that time. *)
Definition register_file (regs : list Z) : hid_device :=
  {| write_answer := fun _ frame => Z.of_nat (length frame);
     read_answer := fun t _ =>
       let v := default 0 (hw_regs regs t !! addressed t) in
       (3, [0x20; Z.land v 0xFF; Z.shiftr v 8]) |}.

(** ** The value text with its legend

    [print_reg_bit_txt] and [print_reg_bit_range_label] build the value
    text in [char strbuf[128]]: the text of the state or of the label and,
    with [-v], a legend of the values behind it. *)

(** Column number. *)
Definition ANSI_TAB2 : string := String (Ascii.ascii_of_nat 27) "[67G".

(** The character of a double quote, as a string. *)
Definition dquote : string := String (Ascii.ascii_of_nat 34) EmptyString.

(** [sprintf(strbuf + strlen(strbuf), ...)] into [char strbuf[128]]: the
    text written so far, the text added and the closing [NUL] have to fit
    into the array; [None] when they do not. *)
Definition sprintf_append (strbuf text : string) : option string :=
  let s := strbuf +:+ text in
  if (String.length s <? 128)%nat then Some s else None.

(** The value text of [print_reg_bit_txt]. *)
Definition strbuf_bit_txt (verbose : bool) (regval bit : Z) (ontxt offtxt : string)
    : option string :=
  let statetxt := if negb (bit_value regval bit =? 0) then ontxt else offtxt in
  strbuf ← sprintf_append EmptyString statetxt;
  if verbose then       (* Verbose values *)
    sprintf_append strbuf
      (ANSI_TAB2 +:+ " {0=" +:+ dquote +:+ offtxt +:+ dquote
         +:+ ", 1=" +:+ dquote +:+ ontxt +:+ dquote +:+ "}")
  else Some strbuf.

(** What the legend shows for one entry of a table, without the comma. *)
Definition legend_item (e : ValLabel) : string :=
  decimal (val e) +:+ "=" +:+ dquote +:+ label e +:+ dquote.

(** The second loop of [print_reg_bit_range_label]: one item and a comma
    for each entry before the closing one. *)
Fixpoint legend_loop (labels : list ValLabel) (strbuf : string) : option string :=
  match labels with
  | [] => None
  | e :: rest =>
      if 0 <=? val e then
        strbuf ← sprintf_append strbuf (legend_item e +:+ ", ");
        legend_loop rest strbuf
      else Some strbuf
  end.

(** [sprintf(strbuf + (strlen(strbuf) - 2), "}")] *)
Definition close_legend (strbuf : string) : string :=
  String.substring 0 (String.length strbuf - 2) strbuf +:+ "}".

(** The value text of [print_reg_bit_range_label]. *)
Definition strbuf_range_label (verbose : bool) (regval firstbit numbits : Z)
    (labels : list ValLabel) : option string :=
  let mask := field_mask numbits in
  valuetxt ← scan_labels labels (field_value regval firstbit mask) None;
  strbuf ← sprintf_append EmptyString valuetxt;
  if verbose then       (* Verbose values *)
    strbuf ← sprintf_append strbuf (ANSI_TAB2 +:+ " {");
    strbuf ← legend_loop labels strbuf;
    Some (close_legend strbuf)
  else Some strbuf.

(** The items of a legend, separated by a comma and a blank. *)
Fixpoint comma_separated (items : list string) : string :=
  match items with
  | [] => EmptyString
  | [item] => item
  | item :: rest => item +:+ ", " +:+ comma_separated rest
  end.

(** The items of a legend as the loop writes them: each followed by a
    comma and a blank. *)
Fixpoint items_with_commas (entries : list ValLabel) : string :=
  match entries with
  | [] => EmptyString
  | e :: rest => legend_item e +:+ ", " +:+ items_with_commas rest
  end.

(* ===================================================================== *)
(** * Properties *)

(** ** Bit-level reasoning *)

Lemma testbit_0xFF i : 0 <= i -> Z.testbit 0xFF i = (i <? 8).
Proof. intros Hi. change 0xFF with (Z.ones 8). apply Z.testbit_ones_nonneg; lia. Qed.

Lemma testbit_0xFFFF i : 0 <= i -> Z.testbit 0xFFFF i = (i <? 16).
Proof. intros Hi. change 0xFFFF with (Z.ones 16). apply Z.testbit_ones_nonneg; lia. Qed.

Lemma testbit_above (x n i : Z) :
  0 <= n -> 0 <= x < 2 ^ n -> n <= i -> Z.testbit x i = false.
Proof.
  intros Hn Hx Hi.
  destruct (Z.eq_dec x 0) as [->|Hne]; [apply Z.bits_0|].
  apply Z.bits_above_log2; [lia|].
  apply Z.lt_le_trans with n; [|lia].
  apply Z.log2_lt_pow2; lia.
Qed.

Lemma testbit_u16_high (x i : Z) : is_u16 x -> 16 <= i -> Z.testbit x i = false.
Proof. intros Hx Hi. apply (testbit_above x 16); unfold is_u16 in Hx; lia. Qed.

Lemma testbit_u8_high (x i : Z) : is_u8 x -> 8 <= i -> Z.testbit x i = false.
Proof. intros Hx Hi. apply (testbit_above x 8); unfold is_u8 in Hx; lia. Qed.

Lemma u16_testbit (x i : Z) :
  0 <= i -> Z.testbit (u16 x) i = Z.testbit x i && (i <? 16).
Proof. intros Hi. unfold u16. by rewrite Z.land_spec, testbit_0xFFFF. Qed.

Lemma u8_testbit (x i : Z) :
  0 <= i -> Z.testbit (u8 x) i = Z.testbit x i && (i <? 8).
Proof. intros Hi. unfold u8. by rewrite Z.land_spec, testbit_0xFF. Qed.

Lemma u16_range (x : Z) : is_u16 (u16 x).
Proof.
  unfold is_u16, u16. change 0xFFFF with (Z.ones 16).
  rewrite Z.land_ones by lia. apply Z.mod_pos_bound. lia.
Qed.

Lemma u8_range (x : Z) : is_u8 (u8 x).
Proof.
  unfold is_u8, u8. change 0xFF with (Z.ones 8).
  rewrite Z.land_ones by lia. apply Z.mod_pos_bound. lia.
Qed.

Lemma u16_id (x : Z) : is_u16 x -> u16 x = x.
Proof.
  intros Hx. unfold u16. change 0xFFFF with (Z.ones 16).
  rewrite Z.land_ones by lia. apply Z.mod_small. exact Hx.
Qed.

Lemma u8_id (x : Z) : is_u8 x -> u8 x = x.
Proof.
  intros Hx. unfold u8. change 0xFF with (Z.ones 8).
  rewrite Z.land_ones by lia. apply Z.mod_small. exact Hx.
Qed.

(** Equality of two integers, bit by bit, with the 16-bit facts at hand. *)
Ltac bitwise i Hi :=
  apply Z.bits_inj'; intros i Hi;
  repeat first
    [ rewrite u16_testbit by lia
    | rewrite Z.lor_spec | rewrite Z.land_spec | rewrite Z.lxor_spec
    | rewrite Z.lnot_spec by lia
    | rewrite testbit_0xFFFF by lia ].

(** ** The masked value *)

Lemma newvalue_formula (cur mask wv : Z) :
  is_u16 cur -> is_u16 wv ->
  newvalue cur mask wv = Z.lor (Z.land cur (Z.lnot mask)) (Z.land wv mask).
Proof.
  intros Hc Hw. unfold newvalue. bitwise i Hi.
  destruct (Z.ltb_spec i 16) as [Hlt|Hge]; [by rewrite andb_true_r|].
  rewrite (testbit_u16_high cur i), (testbit_u16_high wv i) by (done || lia).
  reflexivity.
Qed.

Lemma newvalue_testbit (cur mask wv i : Z) :
  is_u16 cur -> is_u16 wv -> 0 <= i ->
  Z.testbit (newvalue cur mask wv) i
  = if Z.testbit mask i then Z.testbit wv i else Z.testbit cur i.
Proof.
  intros Hc Hw Hi. rewrite newvalue_formula by done.
  rewrite Z.lor_spec, !Z.land_spec, Z.lnot_spec by lia.
  destruct (Z.testbit mask i), (Z.testbit wv i), (Z.testbit cur i); reflexivity.
Qed.

(** C1.  For 16-bit operands the masked read-modify-write value is
    [(cur & ~mask) | (wv & mask)], with [~] the complement of C on the
    promoted operand or, equally, the complement within 16 bits.  The
    result is a 16-bit value, agrees with [wv] on every bit the mask
    selects and with [cur] on every other bit; the full mask yields [wv] and
    the empty mask yields [cur].  [newvalue] is a function on integers: it
    has a value for all operands and touches no transport. *)
Theorem newvalue_masked (cur wv mask : Z) :
  is_u16 cur -> is_u16 wv -> is_u16 mask ->
  newvalue cur mask wv = Z.lor (Z.land cur (Z.lnot mask)) (Z.land wv mask)
  /\ newvalue cur mask wv = Z.lor (Z.land cur (not16 mask)) (Z.land wv mask)
  /\ is_u16 (newvalue cur mask wv)
  /\ Z.land (newvalue cur mask wv) mask = Z.land wv mask
  /\ Z.land (newvalue cur mask wv) (not16 mask) = Z.land cur (not16 mask)
  /\ (forall i, 0 <= i -> Z.testbit mask i = true ->
        Z.testbit (newvalue cur mask wv) i = Z.testbit wv i)
  /\ (forall i, 0 <= i -> Z.testbit mask i = false ->
        Z.testbit (newvalue cur mask wv) i = Z.testbit cur i)
  /\ newvalue cur 0xFFFF wv = wv
  /\ newvalue cur 0x0000 wv = cur.
Proof.
  intros Hc Hw Hm.
  assert (Hbit := fun i => newvalue_testbit cur mask wv i Hc Hw).
  repeat split.
  - by apply newvalue_formula.
  - apply Z.bits_inj'; intros i Hi. rewrite Hbit by done.
    unfold not16.
    rewrite Z.lor_spec, !Z.land_spec, Z.lxor_spec, testbit_0xFFFF by done.
    destruct (Z.ltb_spec i 16) as [Hlt|Hge].
    + destruct (Z.testbit mask i), (Z.testbit wv i), (Z.testbit cur i); reflexivity.
    + rewrite (testbit_u16_high cur i), (testbit_u16_high wv i),
        (testbit_u16_high mask i) by (done || lia).
      reflexivity.
  - apply u16_range.
  - apply u16_range.
  - apply Z.bits_inj'; intros i Hi. rewrite !Z.land_spec, Hbit by done.
    destruct (Z.testbit mask i); [reflexivity|by rewrite !andb_false_r].
  - apply Z.bits_inj'; intros i Hi. unfold not16.
    rewrite !Z.land_spec, Hbit, Z.lxor_spec by done.
    destruct (Z.testbit mask i) eqn:Em; [|reflexivity].
    rewrite testbit_0xFFFF by done.
    destruct (Z.ltb_spec i 16) as [Hlt|Hge]; [by rewrite !andb_false_r|].
    rewrite (testbit_u16_high mask i) in Em by (done || lia). discriminate.
  - intros i Hi Em. by rewrite Hbit, Em.
  - intros i Hi Em. by rewrite Hbit, Em.
  - apply Z.bits_inj'; intros i Hi.
    rewrite newvalue_testbit, testbit_0xFFFF by done.
    destruct (Z.ltb_spec i 16) as [Hlt|Hge]; [reflexivity|].
    by rewrite (testbit_u16_high wv i), (testbit_u16_high cur i) by (done || lia).
  - apply Z.bits_inj'; intros i Hi.
    rewrite newvalue_testbit by done. by rewrite Z.bits_0.
Qed.

(** [-DMASPDIF] on a register 0 that holds 0x2004: bit 15 is taken from the
    written value, the rest of the register stays. *)
Lemma newvalue_masked_witness :
  is_u16 0x2004 /\ is_u16 0x8000 /\ is_u16 0x8000
  /\ newvalue 0x2004 0x8000 0x8000 = 0xA004
  /\ Z.land (newvalue 0x2004 0x8000 0x8000) 0x8000 = Z.land 0x8000 0x8000.
Proof.
  assert (H1 : is_u16 0x2004) by (unfold is_u16; lia).
  assert (H2 : is_u16 0x8000) by (unfold is_u16; lia).
  split; [exact H1|]. split; [exact H2|]. split; [exact H2|].
  split; [reflexivity|].
  exact (proj1 (proj2 (proj2 (proj2 (newvalue_masked 0x2004 0x8000 0x8000 H1 H2 H2))))).
Defined.

(** ** The read and write transactions *)

(** The four ways through [cm6206_read], in terms of the answers of the
    device. *)
Lemma cm6206_read_unfold (dev : hid_device) (regnum value : Z) (t : trace) :
  cm6206_read dev regnum value t =
    if negb (sent_count dev regnum t =? 5) then
      Ret (-1, value) (after_send dev regnum t)
    else if negb (received_count dev regnum t =? 3) then
      Ret (-2, value) (after_receive dev regnum t)
    else if marker_guard (reply_buf dev regnum t) then
      Ret (-3, value) (after_receive dev regnum t)
    else
      Ret (0, decode_value (reply_buf dev regnum t)) (after_receive dev regnum t).
Proof.
  unfold cm6206_read, after_receive, reply_buf, received_count, received_data,
    after_send, sent_count.
  unfold mbind, io_bind, bind, hid_write; cbn beta iota zeta.
  destruct (negb (write_answer dev t (read_request regnum) =? 5)); [reflexivity|].
  unfold hid_read.
  destruct (read_answer dev (t ++ [Write (read_request regnum)
    (write_answer dev t (read_request regnum))]) 5) as [r data]; cbn.
  destruct (negb (r =? 3)); [reflexivity|].
  destruct (marker_guard _); reflexivity.
Qed.

Lemma cm6206_write_unfold (dev : hid_device) (regnum value : Z) (t : trace) :
  cm6206_write dev regnum value t =
    Ret (if negb (write_answer dev t (write_request regnum value) =? 5)
         then -1 else 0)
        (t ++ [Write (write_request regnum value)
                 (write_answer dev t (write_request regnum value))]).
Proof.
  unfold cm6206_write, mbind, io_bind, bind, hid_write; cbn beta iota zeta.
  destruct (negb _); reflexivity.
Qed.

(** The guard as written tests the lowest bit of the first byte. *)
Lemma marker_guard_lsb (buf : list Z) :
  marker_guard buf = Z.testbit (byte_at buf 0) 0.
Proof.
  unfold marker_guard. change (Z.b2z (negb (0xe0 =? 0x20))) with 1.
  assert (H : Z.land (byte_at buf 0) 1 = byte_at buf 0 mod 2)
    by apply (Z.land_ones _ 1 ltac:(lia)).
  pose proof (Z.bit0_mod (byte_at buf 0)) as Hm.
  rewrite H, <- Hm. by destruct (Z.testbit (byte_at buf 0) 0).
Qed.

(** The result code of a read transaction, which always returns. *)
Lemma cm6206_read_returns (dev : hid_device) (regnum value : Z) (t : trace) :
  exists code v t',
    cm6206_read dev regnum value t = Ret (code, v) t'
    /\ (code = 0 \/ code = -1 \/ code = -2 \/ code = -3).
Proof.
  rewrite cm6206_read_unfold.
  destruct (negb (sent_count dev regnum t =? 5)); [eauto 10|].
  destruct (negb (received_count dev regnum t =? 3)); [eauto 10|].
  destruct (marker_guard (reply_buf dev regnum t)); eauto 10.
Qed.

Lemma cm6206_read_code (dev : hid_device) (regnum value : Z) (t : trace) :
  fst <$> returned (cm6206_read dev regnum value t)
  = Some (if negb (sent_count dev regnum t =? 5) then -1
          else if negb (received_count dev regnum t =? 3) then -2
          else if marker_guard (reply_buf dev regnum t) then -3
          else 0).
Proof.
  rewrite cm6206_read_unfold.
  destruct (negb (sent_count dev regnum t =? 5)); [reflexivity|].
  destruct (negb (received_count dev regnum t =? 3)); [reflexivity|].
  destruct (marker_guard (reply_buf dev regnum t)); reflexivity.
Qed.

(** C3.  The guard [buf[0] & 0xe0 != 0x20] is the test [buf[0] & 1]: it
    holds exactly when the lowest bit of the first byte of the report buffer
    is set.  A read transaction returns -3 exactly when the report was sent
    whole, three bytes were received and that bit is 1; so among the replies
    that reach the guard, -3 is returned if and only if the bit is 1.  The
    high bits of the first byte play no part: a reply with status byte 0x40
    (no marker) is decoded, one with status byte 0x21 (marker present) is
    rejected. *)
Theorem marker_guard_is_lsb_test (dev : hid_device) (regnum value : Z) (t : trace) :
  (forall buf, marker_guard buf = negb (Z.land (byte_at buf 0) 1 =? 0))
  /\ (forall buf, marker_guard buf = Z.testbit (byte_at buf 0) 0)
  /\ (fst <$> returned (cm6206_read dev regnum value t) = Some (-3)
      <-> sent_count dev regnum t = 5
          /\ received_count dev regnum t = 3
          /\ Z.testbit (byte_at (reply_buf dev regnum t) 0) 0 = true)
  /\ (fst <$> returned (cm6206_read dev regnum value t) = Some 0
      <-> sent_count dev regnum t = 5
          /\ received_count dev regnum t = 3
          /\ Z.testbit (byte_at (reply_buf dev regnum t) 0) 0 = false)
  /\ (let dev := codec_reply 0x40 3 REG_DEFAULT in
      intended_marker_guard (reply_buf dev 2 []) = true
      /\ returned (cm6206_read dev 2 0 []) = Some (0, 0x6004))
  /\ (let dev := codec_reply 0x21 3 REG_DEFAULT in
      intended_marker_guard (reply_buf dev 2 []) = false
      /\ returned (cm6206_read dev 2 0 []) = Some (-3, 0)).
Proof.
  split; [reflexivity|]. split; [apply marker_guard_lsb|].
  rewrite cm6206_read_code, <- marker_guard_lsb.
  split; [|split; [|split; [split; reflexivity|split; reflexivity]]].
  - destruct (Z.eqb_spec (sent_count dev regnum t) 5) as [Hs|Hs];
      destruct (Z.eqb_spec (received_count dev regnum t) 3) as [Hr|Hr];
      destruct (marker_guard (reply_buf dev regnum t)); cbn;
      (split; [intros H; first [discriminate H | auto] | intros (?&?&?); congruence]).
  - destruct (Z.eqb_spec (sent_count dev regnum t) 5) as [Hs|Hs];
      destruct (Z.eqb_spec (received_count dev regnum t) 3) as [Hr|Hr];
      destruct (marker_guard (reply_buf dev regnum t)); cbn;
      (split; [intros H; first [discriminate H | auto] | intros (?&?&?); congruence]).
Qed.

(** C5, as the code has it.  The read request is a report of five bytes.
    The read transaction returns -1 exactly when the send does not answer
    5, and -2 exactly when the send answered 5 and the receive does not
    answer 3: fewer bytes, an error, or more than three bytes.  Only a
    receive of exactly three bytes passes the length test. *)
Theorem read_short_errors (dev : hid_device) (regnum value : Z) (t : trace) :
  length (read_request regnum) = 5%nat
  /\ (fst <$> returned (cm6206_read dev regnum value t) = Some (-1)
      <-> sent_count dev regnum t <> 5)
  /\ (fst <$> returned (cm6206_read dev regnum value t) = Some (-2)
      <-> sent_count dev regnum t = 5 /\ received_count dev regnum t <> 3).
Proof.
  split; [reflexivity|].
  rewrite cm6206_read_code.
  split.
  - destruct (Z.eqb_spec (sent_count dev regnum t) 5) as [Hs|Hs];
      destruct (Z.eqb_spec (received_count dev regnum t) 3) as [Hr|Hr];
      destruct (marker_guard (reply_buf dev regnum t)); cbn;
      (split; [intros H; first [discriminate H | auto] | intros ?; congruence]).
  - destruct (Z.eqb_spec (sent_count dev regnum t) 5) as [Hs|Hs];
      destruct (Z.eqb_spec (received_count dev regnum t) 3) as [Hr|Hr];
      destruct (marker_guard (reply_buf dev regnum t)); cbn;
      (split; [intros H; first [discriminate H | auto] | intros (?&?); congruence]).
Qed.

(** C5 as stated fails: a receive of five bytes, which is at least three,
    ends the read transaction with -2. *)
Lemma five_bytes_received_is_short_read :
  sent_count (codec_reply 0x20 5 REG_DEFAULT) 0 [] = 5
  /\ received_count (codec_reply 0x20 5 REG_DEFAULT) 0 [] = 5
  /\ received_data (codec_reply 0x20 5 REG_DEFAULT) 0 [] = [0x20; 0x00; 0x20; 0; 0]
  /\ 3 <= received_count (codec_reply 0x20 5 REG_DEFAULT) 0 []
  /\ returned (cm6206_read (codec_reply 0x20 5 REG_DEFAULT) 0 0 []) = Some (-2, 0).
Proof. repeat split. vm_compute. discriminate. Qed.

(** C10.  A read transaction returns one of 0, -1, -2, -3.  With 0 the
    pointed-to value is the decoded register value; with each of the three
    error codes it is what it was at the call.  Storing back what an entry
    of the register buffer already holds leaves the buffer as it is. *)
Theorem failed_read_keeps_value (dev : hid_device) (regnum value : Z) (t : trace) :
  (exists code v t',
     cm6206_read dev regnum value t = Ret (code, v) t'
     /\ (code = 0 /\ v = decode_value (reply_buf dev regnum t)
         \/ (code = -1 \/ code = -2 \/ code = -3) /\ v = value))
  /\ (forall (regbuf : list Z) (n : nat),
        <[n := default 0 (regbuf !! n)]> regbuf = regbuf).
Proof.
  split.
  - rewrite cm6206_read_unfold.
    destruct (negb (sent_count dev regnum t =? 5)); [eauto 10|].
    destruct (negb (received_count dev regnum t =? 3)); [eauto 10|].
    destruct (marker_guard (reply_buf dev regnum t)); eauto 10.
  - intros regbuf n. destruct (regbuf !! n) as [x|] eqn:E; cbn.
    + by apply list_insert_id.
    + apply list_insert_ge. by apply lookup_ge_None.
Qed.

(** ** Report framing *)

Lemma low_byte_u8 (v : Z) : is_u8 (Z.land v 0xFF).
Proof. apply u8_range. Qed.

Lemma high_byte_u8 (v : Z) : is_u16 v -> is_u8 (Z.shiftr v 8).
Proof.
  unfold is_u16, is_u8. intros Hv. rewrite Z.shiftr_div_pow2 by lia.
  change (2 ^ 8) with 256. split.
  - apply Z.div_pos; lia.
  - apply Z.div_lt_upper_bound; lia.
Qed.

Lemma decode_value_bytes (status v : Z) (rest : list Z) :
  is_u16 v ->
  decode_value (status :: Z.land v 0xFF :: Z.shiftr v 8 :: rest) = v.
Proof.
  intros Hv. unfold decode_value, byte_at; cbn.
  apply Z.bits_inj'; intros i Hi.
  rewrite u16_testbit, Z.lor_spec, Z.shiftl_spec, Z.land_spec, testbit_0xFF by lia.
  destruct (Z.ltb_spec i 16) as [H16|H16].
  - rewrite andb_true_r. destruct (Z.ltb_spec i 8) as [H8|H8].
    + rewrite (Z.testbit_neg_r _ (i - 8)) by lia. by rewrite andb_true_r.
    + rewrite u16_testbit, Z.shiftr_spec by lia.
      replace (i - 8 + 8) with i by lia.
      destruct (Z.ltb_spec (i - 8) 16); [|lia].
      by rewrite andb_true_r, andb_false_r, orb_false_r.
  - rewrite andb_false_r. symmetry. by apply testbit_u16_high.
Qed.

(** C6.  For a register index that fits a byte and a 16-bit value, the read
    request is the report [0x00 0x30 0x00 0x00 idx] and the write request is
    [0x00 0x20 (v & 0xFF) (v >> 8) idx]; these are the reports the two
    transactions send.  A report buffer whose bytes at offsets 1 and 2 are
    [v & 0xFF] and [v >> 8] decodes to [v], and a read transaction that
    receives such a reply of three bytes, its status byte even, delivers
    [v]. *)
Theorem report_framing_roundtrip (dev : hid_device) (idx v value status : Z)
    (rest : list Z) (t : trace) :
  is_u8 idx -> is_u16 v ->
  read_request idx = [0x00; 0x30; 0x00; 0x00; idx]
  /\ write_request idx v = [0x00; 0x20; Z.land v 0xFF; Z.shiftr v 8; idx]
  /\ (exists evs,
        trace_of (cm6206_read dev idx value t)
        = t ++ Write [0x00; 0x30; 0x00; 0x00; idx] (sent_count dev idx t) :: evs)
  /\ trace_of (cm6206_write dev idx v t)
     = t ++ [Write [0x00; 0x20; Z.land v 0xFF; Z.shiftr v 8; idx]
               (write_answer dev t (write_request idx v))]
  /\ decode_value (status :: Z.land v 0xFF :: Z.shiftr v 8 :: rest) = v
  /\ (sent_count dev idx t = 5 ->
      received_count dev idx t = 3 ->
      received_data dev idx t = status :: Z.land v 0xFF :: Z.shiftr v 8 :: rest ->
      Z.testbit status 0 = false ->
      cm6206_read dev idx value t = Ret (0, v) (after_receive dev idx t)).
Proof.
  intros Hidx Hv.
  assert (Hrd : read_request idx = [0x00; 0x30; 0x00; 0x00; idx])
    by (unfold read_request; by rewrite (u8_id idx)).
  assert (Hwr : write_request idx v = [0x00; 0x20; Z.land v 0xFF; Z.shiftr v 8; idx]).
  { unfold write_request.
    by rewrite (u8_id idx), (u8_id (Z.land v 0xff)), (u8_id (Z.shiftr v 8))
      by auto using low_byte_u8, high_byte_u8. }
  split; [exact Hrd|]. split; [exact Hwr|]. split; [|split; [|split]].
  - rewrite cm6206_read_unfold. unfold after_receive, after_send. rewrite Hrd.
    destruct (negb (sent_count dev idx t =? 5)).
    + by exists [].
    + destruct (negb _); [|destruct (marker_guard _)]; cbn;
        rewrite <- app_assoc; by eexists.
  - rewrite cm6206_write_unfold. cbn. by rewrite Hwr.
  - by apply decode_value_bytes.
  - intros Hs Hr Hdata Hstatus.
    assert (Hbuf : exists tl, reply_buf dev idx t
                   = u8 status :: Z.land v 0xFF :: Z.shiftr v 8 :: tl).
    { unfold reply_buf. rewrite Hdata, Hrd. cbn.
      rewrite (u8_id (Z.land v 0xFF)), (u8_id (Z.shiftr v 8))
        by auto using low_byte_u8, high_byte_u8.
      by eexists. }
    destruct Hbuf as [tl Hbuf].
    rewrite cm6206_read_unfold, Hs, Hr, marker_guard_lsb, Hbuf. cbn [negb Z.eqb Pos.eqb].
    unfold byte_at at 1; cbn [lookup list_lookup default from_option id].
    rewrite u8_testbit, Hstatus by lia. cbn [andb].
    by rewrite decode_value_bytes.
Qed.

(** Register 2 of a codec that holds the initialization values. *)
Lemma report_framing_roundtrip_witness :
  is_u8 2 /\ is_u16 0xF800
  /\ read_request 2 = [0x00; 0x30; 0x00; 0x00; 2]
  /\ write_request 2 0xF800 = [0x00; 0x20; 0x00; 0xF8; 2]
  /\ cm6206_read (codec REG_INIT) 2 0 []
     = Ret (0, 0xF800) (after_receive (codec REG_INIT) 2 []).
Proof.
  assert (H1 : is_u8 2) by (unfold is_u8; lia).
  assert (H2 : is_u16 0xF800) by (unfold is_u16; lia).
  destruct (report_framing_roundtrip (codec REG_INIT) 2 0xF800 0 0x20 [] [] H1 H2)
    as (Hrd & Hwr & _ & _ & _ & Hread).
  split; [exact H1|]. split; [exact H2|].
  split; [exact Hrd|]. split; [exact Hwr|].
  apply Hread; reflexivity.
Defined.

(** C4, as the code has it.  Both requests are reports of five bytes.  A
    read transaction is one send of the read request, followed by one
    receive exactly when the send answered 5.  A write transaction is one
    send of the write request and nothing else: it never receives. *)
Theorem transaction_events (dev : hid_device) (regnum value v : Z) (t : trace) :
  length (read_request regnum) = 5%nat
  /\ length (write_request regnum v) = 5%nat
  /\ trace_of (cm6206_read dev regnum value t)
     = (if sent_count dev regnum t =? 5
        then t ++ [Write (read_request regnum) 5;
                   Read 5 (received_count dev regnum t) (received_data dev regnum t)]
        else t ++ [Write (read_request regnum) (sent_count dev regnum t)])
  /\ trace_of (cm6206_write dev regnum v t)
     = t ++ [Write (write_request regnum v)
               (write_answer dev t (write_request regnum v))]
  /\ ~ send_then_receive
         [Write (write_request regnum v)
            (write_answer dev t (write_request regnum v))].
Proof.
  split; [reflexivity|]. split; [reflexivity|]. split; [|split].
  - rewrite cm6206_read_unfold. unfold after_receive, after_send.
    destruct (Z.eqb_spec (sent_count dev regnum t) 5) as [Hs|Hs]; cbn; [|reflexivity].
    rewrite Hs.
    destruct (negb _); [|destruct (marker_guard _)]; cbn; by rewrite <- app_assoc.
  - by rewrite cm6206_write_unfold.
  - intros (frame & w & len & r & data & _ & Heq). discriminate Heq.
Qed.

(** C4 as stated fails for the write transaction: writing 0x2004 to
    register 0 is one send, with no receive after it. *)
Lemma write_transaction_has_no_receive :
  trace_of (cm6206_write (codec REG_DEFAULT) 0 0x2004 [])
  = [Write [0x00; 0x20; 0x04; 0x20; 0x00] 5]
  /\ ~ send_then_receive (trace_of (cm6206_write (codec REG_DEFAULT) 0 0x2004 [])).
Proof.
  split; [reflexivity|].
  intros (frame & w & len & r & data & _ & Heq). discriminate Heq.
Qed.

(** ** Reading all registers *)

(** One iteration of the refresh loop: a good read stores its value and
    goes on, a failed one ends the process. *)
Lemma read_register_step (dev : hid_device) (n : nat) (regbuf : list Z) (t : trace) :
  (exists evs v,
     read_ok n evs v
     /\ read_register dev n regbuf t = Ret (<[n := v]> regbuf) (t ++ evs))
  \/ (exists bad,
        read_failed n bad
        /\ read_register dev n regbuf t
           = Exited EXIT_FAILURE (ReadFailed n) (t ++ bad)).
Proof.
  unfold read_register, mbind, io_bind, bind.
  rewrite cm6206_read_unfold. unfold after_receive, after_send.
  destruct (Z.eqb_spec (sent_count dev (Z.of_nat n) t) 5) as [Hs|Hs]; cbn [negb].
  2:{ right. eexists. split; [left; eauto|]. reflexivity. }
  rewrite Hs, <- app_assoc. cbn [app].
  destruct (Z.eqb_spec (received_count dev (Z.of_nat n) t) 3) as [Hr|Hr]; cbn [negb].
  2:{ right. eexists. split; [right; eauto 10|]. reflexivity. }
  rewrite Hr.
  destruct (marker_guard (reply_buf dev (Z.of_nat n) t)) eqn:Hg.
  - right. eexists. split; [right; do 2 eexists; split; [reflexivity|by right]|].
    reflexivity.
  - left. do 2 eexists. split; [|reflexivity].
    eexists. split; [reflexivity|]. split; [exact Hg|reflexivity].
Qed.

(** The refresh loop from register [start] on: either every read is good,
    or the reads before some register [k] are good, the read of [k] fails,
    and nothing follows it. *)
Lemma read_loop (dev : hid_device) (count : nat) :
  forall (start : nat) (regbuf : list Z) (t : trace),
    (exists txns : list (list event * Z),
       Forall2 (fun n tx => read_ok n tx.1 tx.2) (seq start count) txns
       /\ for_regs (read_register dev) start count regbuf t
          = Ret (list_inserts start (txns.*2) regbuf) (t ++ concat (txns.*1)))
    \/ (exists (k : nat) (txns : list (list event * Z)) (bad : list event),
          (start <= k < start + count)%nat
          /\ Forall2 (fun n tx => read_ok n tx.1 tx.2) (seq start (k - start)) txns
          /\ read_failed k bad
          /\ for_regs (read_register dev) start count regbuf t
             = Exited EXIT_FAILURE (ReadFailed k) (t ++ concat (txns.*1) ++ bad)).
Proof.
  induction count as [|count IH]; intros start regbuf t.
  - left. exists []. split; [constructor|]. cbn. by rewrite app_nil_r.
  - cbn [for_regs]. unfold mbind, io_bind, bind.
    destruct (read_register_step dev start regbuf t)
      as [(evs & v & Hok & ->)|(bad & Hbad & ->)].
    + destruct (IH (S start) (<[start := v]> regbuf) (t ++ evs))
        as [(txns & Hall & ->)|(k & txns & bad & Hk & Hall & Hbad & ->)].
      * left. exists ((evs, v) :: txns). split; [by constructor|].
        cbn. rewrite <- !app_assoc. f_equal.
        by rewrite list_insert_inserts_lt by lia.
      * right. exists k, ((evs, v) :: txns), bad.
        split; [lia|]. split; [|split; [exact Hbad|]].
        -- replace (k - start)%nat with (S (k - S start)) by lia.
           by constructor.
        -- cbn. by rewrite <- !app_assoc.
    + right. exists start, [], bad.
      split; [lia|]. rewrite Nat.sub_diag. split; [constructor|]. by split.
Qed.

(** C7.  On a register buffer of [NUM_REGS] entries, [readAllRegisters]
    either performs one good read transaction for each of the registers
    0, 1, ..., 5 in this order, nothing else, and returns the six values
    read; or it performs good read transactions for the registers 0 to
    [k - 1] in this order, then a read transaction of register [k] that
    fails, and ends the process there with [EXIT_FAILURE]: no later register
    is read and no register buffer reaches the caller. *)
Theorem readAllRegisters_batch (dev : hid_device) (regbuf : list Z) (t : trace) :
  length regbuf = NUM_REGS ->
  (exists txns : list (list event * Z),
     Forall2 (fun n tx => read_ok n tx.1 tx.2) (seq 0 NUM_REGS) txns
     /\ readAllRegisters dev regbuf t = Ret (txns.*2) (t ++ concat (txns.*1)))
  \/ (exists (k : nat) (txns : list (list event * Z)) (bad : list event),
        (k < NUM_REGS)%nat
        /\ Forall2 (fun n tx => read_ok n tx.1 tx.2) (seq 0 k) txns
        /\ read_failed k bad
        /\ readAllRegisters dev regbuf t
           = Exited EXIT_FAILURE (ReadFailed k) (t ++ concat (txns.*1) ++ bad)
        /\ returned (readAllRegisters dev regbuf t) = None).
Proof.
  intros Hlen. unfold readAllRegisters.
  destruct (read_loop dev NUM_REGS 0 regbuf t)
    as [(txns & Hall & ->)|(k & txns & bad & Hk & Hall & Hbad & ->)].
  - left. exists txns. split; [exact Hall|]. f_equal.
    rewrite <- (app_nil_r regbuf), list_inserts_0_r; [by rewrite app_nil_r|].
    rewrite length_fmap, <- (Forall2_length _ _ _ Hall), length_seq. by rewrite Hlen.
  - right. exists k, txns, bad. rewrite Nat.sub_0_r in Hall.
    split; [lia|]. by repeat split.
Qed.

(** A codec at its reset values, read into a cleared register buffer. *)
Lemma readAllRegisters_batch_witness :
  length [0; 0; 0; 0; 0; 0] = NUM_REGS
  /\ exists txns : list (list event * Z),
       Forall2 (fun n tx => read_ok n tx.1 tx.2) (seq 0 NUM_REGS) txns
       /\ txns.*2 = REG_DEFAULT
       /\ readAllRegisters (codec REG_DEFAULT) [0; 0; 0; 0; 0; 0] []
          = Ret REG_DEFAULT (concat (txns.*1)).
Proof.
  split; [reflexivity|].
  destruct (readAllRegisters_batch (codec REG_DEFAULT) [0; 0; 0; 0; 0; 0] [] eq_refl)
    as [(txns & Hall & Heq)|(k & txns & bad & _ & _ & _ & _ & Hnone)].
  - exists txns. split; [exact Hall|].
    assert (Hrun : returned (readAllRegisters (codec REG_DEFAULT) [0; 0; 0; 0; 0; 0] [])
                   = Some REG_DEFAULT) by reflexivity.
    rewrite Heq in Hrun. cbn in Hrun. injection Hrun as Hrun.
    split; [exact Hrun|]. rewrite Heq, Hrun. reflexivity.
  - discriminate Hnone.
Defined.

(** ** Initializing all registers *)

Lemma init_register_step (dev : hid_device) (n : nat) (regbuf : list Z) (t : trace) :
  init_register dev n regbuf t =
    if write_answer dev t (init_request n) =? 5
    then Ret regbuf (t ++ [Write (init_request n) 5])
    else Exited EXIT_FAILURE (WriteFailed n)
           (t ++ [Write (init_request n) (write_answer dev t (init_request n))]).
Proof.
  unfold init_register, mbind, io_bind, bind. rewrite cm6206_write_unfold.
  fold (init_request n).
  destruct (Z.eqb_spec (write_answer dev t (init_request n)) 5) as [->|Hne];
    reflexivity.
Qed.

Lemma init_writes_from_S (start count : nat) :
  init_writes_from start (S count)
  = Write (init_request start) 5 :: init_writes_from (S start) count.
Proof. reflexivity. Qed.

(** The write loop when every report is transferred. *)
Lemma init_loop_ok (dev : hid_device) (regbuf : list Z) (count : nat) :
  forall (start : nat) (t : trace),
    (forall n, (n < count)%nat ->
       write_answer dev (t ++ init_writes_from start n) (init_request (start + n)) = 5) ->
    for_regs (init_register dev) start count regbuf t
    = Ret regbuf (t ++ init_writes_from start count).
Proof.
  induction count as [|count IH]; intros start t Hall.
  - cbn. by rewrite app_nil_r.
  - cbn [for_regs]. unfold mbind, io_bind, bind. rewrite init_register_step.
    specialize (Hall 0%nat ltac:(lia)) as H0. cbn in H0.
    rewrite app_nil_r, Nat.add_0_r in H0. rewrite H0. cbn [Z.eqb Pos.eqb].
    rewrite IH.
    + by rewrite init_writes_from_S, <- app_assoc.
    + intros n Hn. specialize (Hall (S n) ltac:(lia)).
      rewrite init_writes_from_S in Hall.
      rewrite Nat.add_succ_r in Hall. rewrite <- app_assoc. exact Hall.
Qed.

(** The write loop when the report number [k] (counted from [start]) is
    the first that is not transferred. *)
Lemma init_loop_fail (dev : hid_device) (regbuf : list Z) (k : nat) :
  forall (count start : nat) (t : trace),
    (k < count)%nat ->
    (forall n, (n < k)%nat ->
       write_answer dev (t ++ init_writes_from start n) (init_request (start + n)) = 5) ->
    write_answer dev (t ++ init_writes_from start k) (init_request (start + k)) <> 5 ->
    for_regs (init_register dev) start count regbuf t
    = Exited EXIT_FAILURE (WriteFailed (start + k))
        (t ++ init_writes_from start k
           ++ [Write (init_request (start + k))
                 (write_answer dev (t ++ init_writes_from start k)
                    (init_request (start + k)))]).
Proof.
  induction k as [|k IH]; intros count start t Hk Hall Hbad.
  - destruct count as [|count]; [lia|].
    cbn [for_regs]. unfold mbind, io_bind, bind. rewrite init_register_step.
    cbn in Hbad |- *. rewrite app_nil_r, Nat.add_0_r in *.
    by destruct (Z.eqb_spec (write_answer dev t (init_request start)) 5).
  - destruct count as [|count]; [lia|].
    cbn [for_regs]. unfold mbind, io_bind, bind. rewrite init_register_step.
    specialize (Hall 0%nat ltac:(lia)) as H0. cbn in H0.
    rewrite app_nil_r, Nat.add_0_r in H0. rewrite H0. cbn [Z.eqb Pos.eqb].
    rewrite init_writes_from_S, Nat.add_succ_r in Hbad |- *.
    change (t ++ Write (init_request start) 5 :: init_writes_from (S start) k)
      with (t ++ [Write (init_request start) 5] ++ init_writes_from (S start) k)
      in Hbad |- *.
    rewrite app_assoc in Hbad |- *.
    rewrite (IH count (S start) (t ++ [Write (init_request start) 5]));
      [| lia | | exact Hbad].
    + by rewrite <- !app_assoc.
    + intros n Hn. specialize (Hall (S n) ltac:(lia)).
      rewrite init_writes_from_S in Hall.
      rewrite Nat.add_succ_r in Hall. rewrite <- app_assoc. exact Hall.
Qed.

(** C8.  The six reports of [-INIT] carry the table 0x2004, 0x3000, 0xF800,
    0x147F, 0x0000, 0x3000 for the registers 0 to 5.  When each of them is
    transferred, the initialization sends exactly these six reports in this
    order and then runs [readAllRegisters].  When the report of register [k]
    is the first that is not transferred, the reports of the registers below
    [k] have been sent and transferred, the report of [k] is the last event
    on the transport, the process ends with [EXIT_FAILURE] naming register
    [k], and neither a later write nor the read of the registers takes
    place. *)
Theorem cmd_init_sequence (dev : hid_device) (regbuf : list Z) (t : trace) :
  init_writes NUM_REGS
  = [Write [0x00; 0x20; 0x04; 0x20; 0] 5;
     Write [0x00; 0x20; 0x00; 0x30; 1] 5;
     Write [0x00; 0x20; 0x00; 0xF8; 2] 5;
     Write [0x00; 0x20; 0x7F; 0x14; 3] 5;
     Write [0x00; 0x20; 0x00; 0x00; 4] 5;
     Write [0x00; 0x20; 0x00; 0x30; 5] 5]
  /\ ((forall n, (n < NUM_REGS)%nat ->
         write_answer dev (t ++ init_writes n) (init_request n) = 5) ->
      cmd_init dev regbuf t
      = readAllRegisters dev regbuf (t ++ init_writes NUM_REGS))
  /\ (forall k, (k < NUM_REGS)%nat ->
        (forall n, (n < k)%nat ->
           write_answer dev (t ++ init_writes n) (init_request n) = 5) ->
        write_answer dev (t ++ init_writes k) (init_request k) <> 5 ->
        cmd_init dev regbuf t
        = Exited EXIT_FAILURE (WriteFailed k)
            (t ++ init_writes k
               ++ [Write (init_request k)
                     (write_answer dev (t ++ init_writes k) (init_request k))])).
Proof.
  split; [reflexivity|]. split.
  - intros Hall. unfold cmd_init, mbind, io_bind, bind.
    by rewrite (init_loop_ok dev regbuf NUM_REGS 0 t Hall).
  - intros k Hk Hall Hbad. unfold cmd_init, mbind, io_bind, bind.
    by rewrite (init_loop_fail dev regbuf k NUM_REGS 0 t Hk Hall Hbad).
Qed.

(** The initialization of a codec that takes every report, and of one whose
    third send (the report of register 2) fails. *)
Lemma cmd_init_sequence_witness :
  cmd_init (codec REG_INIT) REG_DEFAULT []
  = readAllRegisters (codec REG_INIT) REG_DEFAULT (init_writes NUM_REGS)
  /\ returned (cmd_init (codec REG_INIT) REG_DEFAULT []) = Some REG_INIT
  /\ cmd_init (write_fails_at 2 (codec REG_INIT)) REG_DEFAULT []
     = Exited EXIT_FAILURE (WriteFailed 2)
         [Write [0x00; 0x20; 0x04; 0x20; 0] 5;
          Write [0x00; 0x20; 0x00; 0x30; 1] 5;
          Write [0x00; 0x20; 0x00; 0xF8; 2] (-1)].
Proof.
  split; [|split; [reflexivity|]].
  - apply (proj1 (proj2 (cmd_init_sequence (codec REG_INIT) REG_DEFAULT []))).
    intros n _. reflexivity.
  - apply (proj2 (proj2 (cmd_init_sequence (write_fails_at 2 (codec REG_INIT))
                           REG_DEFAULT [])) 2%nat).
    + unfold NUM_REGS. lia.
    + intros [|[|n]] Hn; [reflexivity|reflexivity|lia].
    + discriminate.
Defined.

(** ** Fields of a register *)

Lemma u32_small (x : Z) : 0 <= x < 2 ^ 32 -> u32 x = x.
Proof.
  intros Hx. unfold u32. change 0xFFFFFFFF with (Z.ones 32).
  rewrite Z.land_ones by lia. by apply Z.mod_small.
Qed.

(** The mask of a field of [numbits] bits has its low [numbits] bits set. *)
Lemma field_mask_ones (numbits : Z) :
  0 <= numbits <= 16 -> field_mask numbits = Z.ones numbits.
Proof.
  intros Hn. unfold field_mask. rewrite u32_small by lia.
  apply Z.bits_inj'; intros i Hi.
  rewrite Z.shiftr_spec, testbit_0xFFFF, Z.testbit_ones_nonneg by lia.
  destruct (Z.ltb_spec (i + (16 - numbits)) 16), (Z.ltb_spec i numbits);
    (reflexivity || lia).
Qed.

Lemma field_value_testbit (regval lo n i : Z) :
  0 <= n -> 0 <= i ->
  Z.testbit (field_value regval lo (Z.ones n)) i
  = Z.testbit regval (i + lo) && (i <? n).
Proof.
  intros Hn Hi. unfold field_value.
  by rewrite Z.land_spec, Z.shiftr_spec, Z.testbit_ones_nonneg by lia.
Qed.

(** Two values have the same field exactly when they agree on its bits. *)
Lemma field_value_same_bits (a b lo n : Z) :
  0 <= lo -> 0 <= n ->
  field_value a lo (Z.ones n) = field_value b lo (Z.ones n) <-> same_bits a b lo n.
Proof.
  intros Hlo Hn. split.
  - intros Heq i Hi.
    assert (H : Z.testbit (field_value a lo (Z.ones n)) (i - lo)
                = Z.testbit (field_value b lo (Z.ones n)) (i - lo)) by by rewrite Heq.
    rewrite !field_value_testbit in H by lia.
    replace (i - lo + lo) with i in H by lia.
    destruct (Z.ltb_spec (i - lo) n); [|lia].
    by rewrite !andb_true_r in H.
  - intros Hsame. apply Z.bits_inj'; intros i Hi.
    rewrite !field_value_testbit by lia.
    destruct (Z.ltb_spec i n) as [Hlt|Hge]; [|by rewrite !andb_false_r].
    by rewrite (Hsame (i + lo)) by lia.
Qed.

Lemma bit_value_field (regval bit : Z) :
  bit_value regval bit = field_value regval bit (Z.ones 1).
Proof. reflexivity. Qed.

Lemma same_bits_trans_l (a a' b lo n : Z) :
  same_bits a a' lo n -> same_bits a b lo n <-> same_bits a' b lo n.
Proof.
  intros Haa. split; intros H i Hi.
  - by rewrite <- (Haa i Hi), (H i Hi).
  - by rewrite (Haa i Hi), (H i Hi).
Qed.

(** The classification of a single bit. *)
Lemma bit_isdefault_same_bits (regnum : nat) (regval bit : Z) (label valuetxt : string) :
  0 <= bit ->
  line_isdefault (print_reg_bit_special regnum regval bit label valuetxt) = true
  <-> same_bits regval (reg_default regnum) bit 1.
Proof.
  intros Hbit. cbn [print_reg_bit_special line_isdefault].
  rewrite Z.eqb_eq, !bit_value_field. by apply field_value_same_bits.
Qed.

(** The classification of a bit range, when the two assertions hold. *)
Lemma range_isdefault_same_bits (regnum : nat) (regval firstbit numbits : Z)
    (label valuetxt : string) :
  0 <= firstbit -> 1 < numbits -> firstbit + numbits <= 16 ->
  exists line,
    print_reg_bit_range regnum regval firstbit numbits label valuetxt = Some line
    /\ line_firstbit line = firstbit
    /\ line_lastbit line = firstbit + numbits - 1
    /\ line_label line = label
    /\ line_valuetxt line = valuetxt
    /\ (line_isdefault line = true
        <-> same_bits regval (reg_default regnum) firstbit numbits).
Proof.
  intros Hlo Hn Hhi. unfold print_reg_bit_range.
  destruct (Z.ltb_spec 1 numbits); [|lia]. cbn [negb].
  rewrite !u32_small by lia.
  destruct (Z.leb_spec (firstbit + numbits) 16); [|lia]. cbn [negb].
  eexists. split; [reflexivity|]. cbn. repeat split; try reflexivity.
  all: rewrite field_mask_ones by lia.
  - rewrite Z.eqb_eq. apply field_value_same_bits; lia.
  - rewrite Z.eqb_eq. apply field_value_same_bits; lia.
Qed.

(** ** The fields the program prints *)

Lemma classified_special (regnum : nat) (regval bit : Z) (label valuetxt : string) :
  0 <= bit < 16 ->
  classified regnum regval (Some (print_reg_bit_special regnum regval bit label valuetxt)).
Proof.
  intros Hbit. eexists. split; [reflexivity|].
  cbn [line_firstbit line_lastbit print_reg_bit_special].
  split; [lia|]. split; [lia|].
  replace (bit - bit + 1) with 1 by lia.
  apply bit_isdefault_same_bits. lia.
Qed.

Lemma classified_txt (regnum : nat) (regval bit : Z) (label ontxt offtxt : string) :
  0 <= bit < 16 ->
  classified regnum regval (Some (print_reg_bit_txt regnum regval bit label ontxt offtxt)).
Proof. apply classified_special. Qed.

Lemma classified_def (regnum : nat) (regval bit : Z) (label : string) :
  0 <= bit < 16 ->
  classified regnum regval (Some (print_reg_bit_def regnum regval bit label)).
Proof. apply classified_txt. Qed.

Lemma classified_range (regnum : nat) (regval firstbit numbits : Z)
    (label valuetxt : string) :
  0 <= firstbit -> 1 < numbits -> firstbit + numbits <= 16 ->
  classified regnum regval
    (print_reg_bit_range regnum regval firstbit numbits label valuetxt).
Proof.
  intros Hlo Hn Hhi.
  destruct (range_isdefault_same_bits regnum regval firstbit numbits label valuetxt
              Hlo Hn Hhi) as (line & -> & Hf & Hl & _ & _ & Hiff).
  exists line. split; [reflexivity|]. rewrite Hf, Hl.
  split; [lia|]. split; [lia|].
  by replace (firstbit + numbits - 1 - firstbit + 1) with numbits by lia.
Qed.

(** The scan of a table ends at its closing entry with some label. *)
Lemma scan_labels_is_Some (labels : list ValLabel) (x : Z) :
  Exists (fun e => val e < 0) labels ->
  forall valuetxt, is_Some (scan_labels labels x valuetxt).
Proof.
  induction 1 as [e rest Hneg|e rest Hex IH]; intros valuetxt; cbn.
  - destruct (Z.leb_spec 0 (val e)); [lia|]. by eexists.
  - destruct (Z.leb_spec 0 (val e)); [apply IH|by eexists].
Qed.

Lemma classified_range_label (regnum : nat) (regval firstbit numbits : Z)
    (label : string) (labels : list ValLabel) :
  0 <= firstbit -> 1 < numbits -> firstbit + numbits <= 16 ->
  Exists (fun e => val e < 0) labels ->
  classified regnum regval
    (print_reg_bit_range_label regnum regval firstbit numbits label labels).
Proof.
  intros Hlo Hn Hhi Hex. unfold print_reg_bit_range_label.
  destruct (scan_labels_is_Some labels
              (field_value regval firstbit (field_mask numbits)) Hex None)
    as [txt ->].
  cbn. by apply classified_range.
Qed.

(** Finds the closing entry of a concrete table. *)
Ltac closing_entry :=
  repeat first [ apply Exists_cons_hd; cbn; lia | apply Exists_cons_tl ].

Ltac classify_line :=
  first
    [ apply classified_def; lia
    | apply classified_txt; lia
    | apply classified_special; lia
    | apply classified_range; lia
    | apply classified_range_label; [lia | lia | lia | closing_entry] ].

(** Every line of the printout of every register classifies its field by
    the bits it names. *)
Lemma printout_classified (regbuf : list Z) (regnum : nat)
    (header : bool) (lines : list (option field_line)) :
  cmd_print_all regbuf !! regnum = Some (header, lines) ->
  Forall (classified regnum (default 0 (regbuf !! regnum))) lines.
Proof.
  intros Hreg.
  destruct regnum as [|[|[|[|[|[|regnum]]]]]]; cbn in Hreg;
    [injection Hreg as <- <-; repeat (constructor; [classify_line|]); constructor ..
    | discriminate Hreg].
Qed.

(** C9.  A bit range that passes the two assertions of
    [print_reg_bit_range] is printed as default exactly when the raw value
    and the reset value of the register agree on the [numbits] bits from
    [firstbit] upwards, and a single bit exactly when they agree on that
    bit.  Hence two raw values that agree on the bits of the field give it
    the same classification, whatever their other bits are.  Every line
    that the printout of the six registers produces is classified in this
    way by the bits it names. *)
Theorem field_classification (regnum : nat) (regval regval' firstbit numbits bit : Z)
    (label valuetxt : string) :
  0 <= firstbit -> 1 < numbits -> firstbit + numbits <= 16 -> 0 <= bit ->
  (exists line,
     print_reg_bit_range regnum regval firstbit numbits label valuetxt = Some line
     /\ (line_isdefault line = true
         <-> same_bits regval (reg_default regnum) firstbit numbits))
  /\ (line_isdefault (print_reg_bit_special regnum regval bit label valuetxt) = true
      <-> same_bits regval (reg_default regnum) bit 1)
  /\ (same_bits regval regval' firstbit numbits ->
      line_isdefault
        <$> print_reg_bit_range regnum regval firstbit numbits label valuetxt
      = line_isdefault
        <$> print_reg_bit_range regnum regval' firstbit numbits label valuetxt)
  /\ (same_bits regval regval' bit 1 ->
      line_isdefault (print_reg_bit_special regnum regval bit label valuetxt)
      = line_isdefault (print_reg_bit_special regnum regval' bit label valuetxt))
  /\ (forall (regbuf : list Z) (n : nat) header lines,
        cmd_print_all regbuf !! n = Some (header, lines) ->
        Forall (classified n (default 0 (regbuf !! n))) lines).
Proof.
  intros Hlo Hn Hhi Hbit.
  destruct (range_isdefault_same_bits regnum regval firstbit numbits label valuetxt
              Hlo Hn Hhi) as (line & Hline & _ & _ & _ & _ & Hiff).
  destruct (range_isdefault_same_bits regnum regval' firstbit numbits label valuetxt
              Hlo Hn Hhi) as (line' & Hline' & _ & _ & _ & _ & Hiff').
  pose proof (bit_isdefault_same_bits regnum regval bit label valuetxt Hbit) as Hb.
  pose proof (bit_isdefault_same_bits regnum regval' bit label valuetxt Hbit) as Hb'.
  split; [by exists line|]. split; [exact Hb|]. split; [|split].
  - intros Hsame. rewrite Hline, Hline'. cbn. f_equal.
    apply eq_true_iff_eq. rewrite Hiff, Hiff'. by apply same_bits_trans_l.
  - intros Hsame. apply eq_true_iff_eq. rewrite Hb, Hb'. by apply same_bits_trans_l.
  - apply printout_classified.
Qed.

(** The category code of register 0, bits 4 to 11: the raw values 0x2004
    and 0xA00B differ from each other outside these bits only, and both
    leave the field at its reset value. *)
Lemma field_classification_witness :
  0 <= 4 /\ 1 < 8 /\ 4 + 8 <= 16 /\ 0 <= 2
  /\ same_bits 0x2004 (reg_default 0) 4 8
  /\ line_isdefault
       <$> print_reg_bit_range 0 0x2004 4 8 "Category code" "0"
     = line_isdefault
       <$> print_reg_bit_range 0 0xA00B 4 8 "Category code" "0".
Proof.
  assert (H1 : 0 <= 4) by lia. assert (H2 : 1 < 8) by lia.
  assert (H3 : 4 + 8 <= 16) by lia. assert (H4 : 0 <= 2) by lia.
  destruct (field_classification 0 0x2004 0xA00B 4 8 2 "Category code" "0"
              H1 H2 H3 H4) as ((line & Hline & Hiff) & _ & Hsame & _ & _).
  assert (Hbits : forall a b, Z.land (Z.shiftr a 4) 0xFF = Z.land (Z.shiftr b 4) 0xFF ->
                              same_bits a b 4 8).
  { intros a b Heq. apply field_value_same_bits; [lia|lia|exact Heq]. }
  split; [exact H1|]. split; [exact H2|]. split; [exact H3|]. split; [exact H4|].
  split.
  - by apply Hbits.
  - apply Hsame. by apply Hbits.
Defined.

(** ** Looking up the label of a value *)

(** The loop over the entries before the closing one. *)
Lemma scan_labels_entries (sentinel : ValLabel) (rest : list ValLabel) (x : Z)
    (entries : list ValLabel) :
  Forall (fun e => 0 <= val e) entries -> val sentinel < 0 ->
  forall valuetxt,
    scan_labels (entries ++ sentinel :: rest) x valuetxt
    = Some (default (label sentinel) (after_entries x valuetxt entries)).
Proof.
  intros Hpos Hneg. induction Hpos as [|e entries He _ IH]; intros valuetxt; cbn.
  - by destruct (Z.leb_spec 0 (val sentinel)); [lia|].
  - destruct (Z.leb_spec 0 (val e)); [|lia]. apply IH.
Qed.

Lemma after_entries_no_match (x : Z) (entries : list ValLabel) :
  Forall (fun e => val e <> x) entries ->
  forall valuetxt, after_entries x valuetxt entries = valuetxt.
Proof.
  induction 1 as [|e entries He _ IH]; intros valuetxt; cbn; [reflexivity|].
  destruct (Z.eqb_spec (val e) x); [done|]. apply IH.
Qed.

(** The last entry of value [x] decides. *)
Lemma after_entries_last (x : Z) (pre post : list ValLabel) (e : ValLabel) :
  val e = x -> Forall (fun e' => val e' <> x) post ->
  forall valuetxt, after_entries x valuetxt (pre ++ e :: post) = Some (label e).
Proof.
  intros He Hpost valuetxt. unfold after_entries.
  rewrite foldl_app. cbn. rewrite (proj2 (Z.eqb_eq _ _) He).
  by apply after_entries_no_match.
Qed.

(** Where [List.find] finds its entry. *)
Lemma find_split {A} (f : A -> bool) (l : list A) (a : A) :
  List.find f l = Some a ->
  exists pre post, l = pre ++ a :: post /\ f a = true.
Proof.
  induction l as [|b l IH]; cbn; [discriminate|].
  destruct (f b) eqn:Hb.
  - intros [= ->]. by exists [], l.
  - intros Hfind. destruct (IH Hfind) as (pre & post & -> & Ha).
    by exists (b :: pre), post.
Qed.

Lemma find_none_Forall {A} (f : A -> bool) (l : list A) :
  List.find f l = None -> Forall (fun a => f a = false) l.
Proof.
  induction l as [|b l IH]; cbn; [constructor|].
  destruct (f b) eqn:Hb; [discriminate|]. intros Hfind. by constructor; [|apply IH].
Qed.

(** In a table without a value twice the first entry of a value is the
    last one. *)
Lemma after_entries_first_match (x : Z) (entries : list ValLabel) :
  NoDup (val <$> entries) ->
  after_entries x None entries = first_match entries x.
Proof.
  intros Hnodup. unfold first_match.
  destruct (List.find (fun e => val e =? x) entries) as [e|] eqn:Hfind; cbn.
  - destruct (find_split _ _ _ Hfind) as (pre & post & -> & He).
    apply Z.eqb_eq in He. apply after_entries_last; [exact He|].
    rewrite fmap_app, fmap_cons in Hnodup.
    apply NoDup_app in Hnodup as (_ & _ & Hpost).
    apply NoDup_cons in Hpost as [Hnotin _].
    apply Forall_forall. intros e' Hin Heq. apply Hnotin.
    rewrite He, <- Heq. apply list_elem_of_fmap. by exists e'.
  - apply after_entries_no_match.
    eapply Forall_impl; [by apply find_none_Forall|].
    cbn. intros e' He'. by apply Z.eqb_neq.
Qed.

(** Splits a concrete table into its entries and its closing entry. *)
Ltac declared T :=
  exists (removelast T), (List.last T (VL 0 EmptyString));
  split; [reflexivity|];
  split; [repeat constructor; cbn; lia|];
  split; [cbn; lia|];
  apply (bool_decide_unpack _); vm_compute; reflexivity.

(** The six tables of the program are declared without a value twice. *)
Lemma label_tables_declared : Forall declared_table label_tables.
Proof.
  unfold label_tables.
  repeat match goal with
         | |- Forall _ (?T :: _) => constructor; [declared T|]
         end.
  constructor.
Qed.

(** C2, as the code has it.  For a table of entries closed by an entry of
    negative value, the label printed for the value [x] is the label of the
    LAST entry whose value is [x]: the loop does not stop at a match, and a
    later match replaces an earlier one.  When no entry has the value [x],
    the label of the closing entry is printed.  In a table that declares no
    value twice, as the six tables of the program do, the last match is the
    first one.  The value looked up for a field is
    [(regval >> firstbit) & (2 ^ numbits - 1)]. *)
Theorem label_lookup (entries : list ValLabel) (sentinel : ValLabel) (x : Z) :
  Forall (fun e => 0 <= val e) entries -> val sentinel < 0 ->
  (forall pre e post,
     entries = pre ++ e :: post -> val e = x ->
     Forall (fun e' => val e' <> x) post ->
     scan_labels (entries ++ [sentinel]) x None = Some (label e))
  /\ (Forall (fun e' => val e' <> x) entries ->
      scan_labels (entries ++ [sentinel]) x None = Some (label sentinel))
  /\ (NoDup (val <$> entries) ->
      scan_labels (entries ++ [sentinel]) x None
      = Some (default (label sentinel) (first_match entries x)))
  /\ (forall (regnum : nat) (regval firstbit numbits : Z) (lbl : string),
        0 <= firstbit -> 1 < numbits -> firstbit + numbits <= 16 ->
        x = Z.land (Z.shiftr regval firstbit) (2 ^ numbits - 1) ->
        line_valuetxt
          <$> print_reg_bit_range_label regnum regval firstbit numbits lbl
                (entries ++ [sentinel])
        = scan_labels (entries ++ [sentinel]) x None)
  /\ Forall declared_table label_tables.
Proof.
  intros Hpos Hneg.
  pose proof (scan_labels_entries sentinel [] x entries Hpos Hneg None) as Hscan.
  split; [|split; [|split; [|split]]].
  - intros pre e post -> He Hpost. rewrite Hscan.
    by rewrite (after_entries_last x pre post e He Hpost).
  - intros Hnone. rewrite Hscan. by rewrite after_entries_no_match.
  - intros Hnodup. rewrite Hscan. by rewrite after_entries_first_match.
  - intros regnum regval firstbit numbits lbl Hlo Hn Hhi ->.
    unfold print_reg_bit_range_label.
    rewrite field_mask_ones by lia. unfold field_value.
    rewrite Z.ones_equiv, <- Z.sub_1_r.
    destruct (scan_labels (entries ++ [sentinel]) _ None) as [txt|]; [|reflexivity].
    cbn.
    destruct (range_isdefault_same_bits regnum regval firstbit numbits lbl txt
                Hlo Hn Hhi) as (line & -> & _ & _ & _ & Htxt & _).
    cbn. by rewrite Htxt.
  - apply label_tables_declared.
Qed.

(** The table [(0, A), (2, B)] with the default label R: the value 2 gives
    B, the value 1, which is not listed, gives R. *)
Lemma label_lookup_witness :
  Forall (fun e => 0 <= val e) [VL 0 "A"; VL 2 "B"]
  /\ val (VL (-1) "R") < 0
  /\ scan_labels [VL 0 "A"; VL 2 "B"; VL (-1) "R"] 2 None = Some "B"
  /\ scan_labels [VL 0 "A"; VL 2 "B"; VL (-1) "R"] 1 None = Some "R".
Proof.
  assert (H1 : Forall (fun e => 0 <= val e) [VL 0 "A"; VL 2 "B"])
    by (repeat constructor; cbn; lia).
  assert (H2 : val (VL (-1) "R") < 0) by (cbn; lia).
  split; [exact H1|]. split; [exact H2|]. split.
  - apply (proj1 (label_lookup [VL 0 "A"; VL 2 "B"] (VL (-1) "R") 2 H1 H2)
             [VL 0 "A"] (VL 2 "B") []); [reflexivity|reflexivity|constructor].
  - apply (proj1 (proj2 (label_lookup [VL 0 "A"; VL 2 "B"] (VL (-1) "R") 1 H1 H2))).
    repeat constructor; cbn; lia.
Defined.

(** C2 as stated fails on a table that declares the value 1 twice: the
    first entry of value 1 is labelled A, and the label printed is B. *)
Lemma duplicate_value_last_label_wins :
  first_match [VL 1 "A"; VL 1 "B"] 1 = Some "A"
  /\ scan_labels [VL 1 "A"; VL 1 "B"; VL (-1) "R"] 1 None = Some "B"
  /\ line_valuetxt
       <$> print_reg_bit_range_label 0 0x1000 12 3 "Field"
             [VL 1 "A"; VL 1 "B"; VL (-1) "R"]
     = Some "B".
Proof. repeat split. Qed.

(** ** The write command and two runs *)

(** [-w]: the report sent carries the masked value computed from the
    register buffer; the registers are read again when it was transferred. *)
Lemma cmd_write_sends_masked_value (dev : hid_device) (reg : nat)
    (writeVal mask : Z) (regbuf : list Z) (t : trace) :
  let frame :=
    write_request (Z.of_nat reg) (newvalue (default 0 (regbuf !! reg)) mask writeVal) in
  cmd_write dev reg writeVal mask regbuf t
  = if write_answer dev t frame =? 5
    then readAllRegisters dev regbuf (t ++ [Write frame 5])
    else Exited EXIT_FAILURE (WriteFailed reg)
           (t ++ [Write frame (write_answer dev t frame)]).
Proof.
  cbn zeta. unfold cmd_write, mbind, io_bind, bind. rewrite cm6206_write_unfold.
  destruct (Z.eqb_spec (write_answer dev t
    (write_request (Z.of_nat reg) (newvalue (default 0 (regbuf !! reg)) mask writeVal))) 5)
    as [->|Hne]; reflexivity.
Qed.

(** [-DMASPDIF] on a codec at its reset values: register 0 holds 0x2000, and
    the report carries 0xA000. *)
Example run_dma_spdif :
  trace_of (cmd_write (codec REG_DEFAULT) 0 0x8000 0x8000 REG_DEFAULT [])
    !! 0%nat
  = Some (Write [0x00; 0x20; 0x00; 0xA0; 0x00] 5).
Proof. reflexivity. Qed.

(** The refresh of the register buffer when the third receive fails: the
    registers 0 and 1 are read, the read of register 2 ends the process,
    and the registers 3 to 5 are not asked for. *)
Example run_read_fails_at_2 :
  readAllRegisters (read_fails_at 2 (codec REG_DEFAULT)) [0; 0; 0; 0; 0; 0] []
  = Exited EXIT_FAILURE (ReadFailed 2)
      [Write [0x00; 0x30; 0x00; 0x00; 0] 5; Read 5 3 [0x20; 0x00; 0x20];
       Write [0x00; 0x30; 0x00; 0x00; 1] 5; Read 5 3 [0x20; 0x02; 0x30];
       Write [0x00; 0x30; 0x00; 0x00; 2] 5; Read 5 (-1) []].
Proof. reflexivity. Qed.

(* ===================================================================== *)
(** * Further properties of the printout *)

Lemma same_bits_refl (a lo n : Z) : same_bits a a lo n.
Proof. by intros i _. Qed.

Lemma same_bits_split (a b bottom lo hi : Z) :
  bottom <= lo -> lo <= hi + 1 ->
  same_bits a b lo (hi - lo + 1) /\ same_bits a b bottom (lo - 1 - bottom + 1)
  <-> same_bits a b bottom (hi - bottom + 1).
Proof.
  intros Hb Hl. split.
  - intros [Hup Hdown] i Hi.
    destruct (Z.lt_ge_cases i lo); [apply Hdown|apply Hup]; lia.
  - intros Hall. split; intros i Hi; apply Hall; lia.
Qed.

Lemma same_bits_u16 (a b : Z) : is_u16 a -> is_u16 b -> same_bits a b 0 16 -> a = b.
Proof.
  intros Ha Hb Hsame. apply Z.bits_inj'; intros i Hi.
  destruct (Z.lt_ge_cases i 16) as [Hlt|Hge]; [apply Hsame; lia|].
  by rewrite (testbit_u16_high a i), (testbit_u16_high b i).
Qed.

Lemma reg_default_u16 (regnum : nat) : is_u16 (reg_default regnum).
Proof.
  unfold reg_default, is_u16.
  destruct regnum as [|[|[|[|[|[|[|regnum]]]]]]]; cbn; lia.
Qed.

(** The span of each kind of line. *)
Lemma span_special (regnum : nat) (regval bit : Z) (label valuetxt : string) :
  line_span (Some (print_reg_bit_special regnum regval bit label valuetxt))
  = Some (bit, bit).
Proof. reflexivity. Qed.

Lemma span_txt (regnum : nat) (regval bit : Z) (label ontxt offtxt : string) :
  line_span (Some (print_reg_bit_txt regnum regval bit label ontxt offtxt))
  = Some (bit, bit).
Proof. reflexivity. Qed.

Lemma span_def (regnum : nat) (regval bit : Z) (label : string) :
  line_span (Some (print_reg_bit_def regnum regval bit label)) = Some (bit, bit).
Proof. reflexivity. Qed.

Lemma span_range (regnum : nat) (regval firstbit numbits : Z) (label valuetxt : string) :
  0 <= firstbit -> 1 < numbits -> firstbit + numbits <= 16 ->
  line_span (print_reg_bit_range regnum regval firstbit numbits label valuetxt)
  = Some (firstbit + numbits - 1, firstbit).
Proof.
  intros Hlo Hn Hhi.
  destruct (range_isdefault_same_bits regnum regval firstbit numbits label valuetxt
              Hlo Hn Hhi) as (line & -> & Hf & Hl & _).
  cbn. by rewrite Hf, Hl.
Qed.

Lemma span_range_label (regnum : nat) (regval firstbit numbits : Z)
    (label : string) (labels : list ValLabel) :
  0 <= firstbit -> 1 < numbits -> firstbit + numbits <= 16 ->
  Exists (fun e => val e < 0) labels ->
  line_span (print_reg_bit_range_label regnum regval firstbit numbits label labels)
  = Some (firstbit + numbits - 1, firstbit).
Proof.
  intros Hlo Hn Hhi Hex. unfold print_reg_bit_range_label.
  destruct (scan_labels_is_Some labels
              (field_value regval firstbit (field_mask numbits)) Hex None)
    as [txt ->].
  cbn [mbind option_bind]. by apply span_range.
Qed.

(** Rewrites the span of a line of a concrete printout. *)
Ltac head_span :=
  first
    [ rewrite span_def
    | rewrite span_txt
    | rewrite span_special
    | rewrite span_range by lia
    | rewrite span_range_label by first [lia | closing_entry] ].

(** Lines that tile a range of bits are all at default exactly when the
    raw value has the reset value on that range. *)
Lemma tiles_default (regnum : nat) (regval : Z) (lines : list (option field_line)) :
  Forall (classified regnum regval) lines ->
  forall top bottom,
    tiles top bottom (line_span <$> lines) ->
    Forall printed_default lines
    <-> same_bits regval (reg_default regnum) bottom (top - bottom + 1).
Proof.
  induction 1 as [|ol lines Hol _ IH]; intros top bottom Htiles.
  - cbn in Htiles. subst top. split; [|constructor].
    intros _ i Hi. lia.
  - destruct Hol as (line & -> & Hspan & Hhi & Hiff).
    cbn in Htiles. destruct Htiles as (<- & Hlo & Hrest).
    rewrite Forall_cons, (IH _ _ Hrest).
    unfold printed_default at 1. cbn.
    rewrite <- (same_bits_split regval (reg_default regnum) bottom
                  (line_firstbit line) (line_lastbit line)) by lia.
    rewrite <- Hiff. split.
    + intros [[= ->] Hdown]. by split.
    + intros [-> Hdown]. by split.
Qed.

(** Opens the printout of register [n] in [cmd_print_all]. *)
Ltac open_printout Hreg :=
  unfold cmd_print_all in Hreg; cbn [lookup list_lookup] in Hreg;
  first
    [ discriminate Hreg
    | unfold print_cm6202_reg0, print_cm6202_reg1, print_cm6202_reg2,
        print_cm6202_reg3, print_cm6202_reg4, print_cm6202_reg5 in Hreg;
      injection Hreg as <- <- ].

Ltac tile_lines :=
  cbn [fmap list_fmap take drop]; repeat head_span;
  cbn [tiles descending]; repeat split; lia.

(** The lines of a register cover the bits 15 to 0 once each, in this
    order; those of register 3 leave out bit 13. *)
Lemma printout_tiles (regbuf : list Z) (n : nat)
    (header : bool) (lines : list (option field_line)) :
  cmd_print_all regbuf !! n = Some (header, lines) ->
  if decide (n = 3%nat)
  then tiles 15 14 (line_span <$> take 1 lines)
       /\ tiles 12 0 (line_span <$> drop 1 lines)
  else tiles 15 0 (line_span <$> lines).
Proof.
  intros Hreg.
  destruct n as [|[|[|[|[|[|n]]]]]]; open_printout Hreg;
    case_decide; try lia; first [tile_lines | split; tile_lines].
Qed.

Lemma printout_header (regbuf : list Z) (n : nat)
    (header : bool) (lines : list (option field_line)) :
  cmd_print_all regbuf !! n = Some (header, lines) ->
  header = print_reg_header n (default 0 (regbuf !! n)).
Proof.
  intros Hreg.
  destruct n as [|[|[|[|[|[|n]]]]]]; open_printout Hreg; reflexivity.
Qed.

(** X1.  When the header of a register is printed as default, which is
    when the raw value is the reset value, every field line of the register
    is printed, and printed as default. *)
Theorem header_default_fields_default (regbuf : list Z) (n : nat)
    (header : bool) (lines : list (option field_line)) :
  cmd_print_all regbuf !! n = Some (header, lines) ->
  header = true ->
  Forall printed_default lines.
Proof.
  intros Hreg Hheader.
  rewrite (printout_header _ _ _ _ Hreg) in Hheader.
  apply Z.eqb_eq in Hheader.
  eapply Forall_impl; [exact (printout_classified _ _ _ _ Hreg)|].
  intros ol (line & -> & _ & _ & Hiff). unfold printed_default. cbn. f_equal.
  apply Hiff. rewrite Hheader. apply same_bits_refl.
Qed.

Lemma header_default_fields_default_witness :
  cmd_print_all REG_DEFAULT !! 0%nat = Some (true, (print_cm6202_reg0 0x2000).2)
  /\ Forall printed_default (print_cm6202_reg0 0x2000).2.
Proof.
  split; [reflexivity|].
  exact (header_default_fields_default REG_DEFAULT 0 true
           (print_cm6202_reg0 0x2000).2 eq_refl eq_refl).
Defined.

(** X2.  For the registers 0, 1, 2, 4 and 5 the fields cover all sixteen
    bits: when the raw value is a 16-bit value and every field line is
    printed as default, the header is printed as default too. *)
Theorem fields_default_header_default (regbuf : list Z) (n : nat)
    (header : bool) (lines : list (option field_line)) :
  n <> 3%nat ->
  is_u16 (default 0 (regbuf !! n)) ->
  cmd_print_all regbuf !! n = Some (header, lines) ->
  Forall printed_default lines ->
  header = true.
Proof.
  intros Hn Hval Hreg Hall.
  rewrite (printout_header _ _ _ _ Hreg). apply Z.eqb_eq.
  apply same_bits_u16; [exact Hval|apply reg_default_u16|].
  pose proof (printout_tiles _ _ _ _ Hreg) as Htiles.
  destruct (decide (n = 3%nat)) as [|_]; [done|].
  by apply (tiles_default n _ lines (printout_classified _ _ _ _ Hreg) 15 0 Htiles).
Qed.

Lemma fields_default_header_default_witness :
  2%nat <> 3%nat
  /\ is_u16 (default 0 (REG_DEFAULT !! 2%nat))
  /\ print_reg_header 2 0x6004 = true.
Proof.
  assert (H1 : 2%nat <> 3%nat) by discriminate.
  assert (H2 : is_u16 (default 0 (REG_DEFAULT !! 2%nat))) by (cbn; unfold is_u16; lia).
  split; [exact H1|]. split; [exact H2|].
  refine (fields_default_header_default REG_DEFAULT 2
            (print_reg_header 2 0x6004) (print_cm6202_reg2 0x6004).2
            H1 H2 eq_refl _).
  repeat constructor.
Defined.


(** X4.  In the printout of every register, whatever its value, each line
    names bits between 0 and 15 and lies below the line before it: no bit
    is described by two lines. *)
Theorem printout_fields_disjoint (regbuf : list Z) (n : nat)
    (header : bool) (lines : list (option field_line)) :
  cmd_print_all regbuf !! n = Some (header, lines) ->
  descending 15 (line_span <$> lines).
Proof.
  intros Hreg.
  destruct n as [|[|[|[|[|[|n]]]]]]; open_printout Hreg; tile_lines.
Qed.

Lemma printout_fields_disjoint_witness :
  cmd_print_all REG_INIT !! 3%nat = Some (print_cm6202_reg3 0x147f)
  /\ descending 15 (line_span <$> (print_cm6202_reg3 0x147f).2).
Proof.
  split; [reflexivity|].
  exact (printout_fields_disjoint REG_INIT 3 (print_cm6202_reg3 0x147f).1
           (print_cm6202_reg3 0x147f).2 eq_refl).
Defined.

(* ===================================================================== *)
(** * Further properties of the lookup and of the transactions *)

Lemma bit_value_testbit (regval bit : Z) :
  0 <= bit -> bit_value regval bit = Z.b2z (Z.testbit regval bit).
Proof.
  intros Hbit. unfold bit_value.
  assert (H : Z.land (Z.shiftr regval bit) 1 = Z.shiftr regval bit mod 2)
    by apply (Z.land_ones _ 1 ltac:(lia)).
  rewrite H, <- Z.bit0_mod, Z.shiftr_spec by lia. by rewrite Z.add_0_l.
Qed.



Lemma scan_labels_no_closing (labels : list ValLabel) (x : Z) :
  Forall (fun e => 0 <= val e) labels ->
  forall valuetxt, scan_labels labels x valuetxt = None.
Proof.
  induction 1 as [|e rest He _ IH]; intros valuetxt; cbn; [reflexivity|].
  destruct (Z.leb_spec 0 (val e)); [apply IH|lia].
Qed.

(** X6.  The lookup of a label ends with a label exactly when the table
    has an entry of negative value; a table of entries from 0 up only is
    read past its end, whatever value is looked up. *)
Theorem scan_labels_needs_closing_entry (labels : list ValLabel) (x : Z)
    (valuetxt : option string) :
  (is_Some (scan_labels labels x valuetxt) <-> Exists (fun e => val e < 0) labels)
  /\ (scan_labels labels x valuetxt = None <-> Forall (fun e => 0 <= val e) labels).
Proof.
  assert (Hdec : Exists (fun e => val e < 0) labels
                 \/ Forall (fun e => 0 <= val e) labels).
  { induction labels as [|e rest [IH|IH]].
    - right. constructor.
    - left. by apply Exists_cons_tl.
    - destruct (Z.lt_ge_cases (val e) 0).
      + left. by apply Exists_cons_hd.
      + right. by constructor. }
  split; split.
  - intros Hsome. destruct Hdec as [Hex|Hall]; [exact Hex|].
    rewrite (scan_labels_no_closing labels x Hall) in Hsome.
    by destruct Hsome.
  - intros Hex. by apply scan_labels_is_Some.
  - intros Hnone. destruct Hdec as [Hex|Hall]; [|exact Hall].
    destruct (scan_labels_is_Some labels x Hex valuetxt) as [txt Htxt]. congruence.
  - intros Hall. by apply scan_labels_no_closing.
Qed.

(** A label held after the entries was held before them or is the label
    of one of them. *)
Lemma after_entries_label (x : Z) (entries : list ValLabel) :
  forall valuetxt txt,
    after_entries x valuetxt entries = Some txt ->
    valuetxt = Some txt \/ exists e, e ∈ entries /\ txt = label e.
Proof.
  induction entries as [|e entries IH]; intros valuetxt txt; cbn; [by left|].
  intros Hafter. destruct (IH _ _ Hafter) as [Hhere|(e' & Hin & ->)].
  - destruct (Z.eqb_spec (val e) x) as [_|_]; [|by left].
    injection Hhere as <-. right. exists e. split; [|reflexivity].
    apply elem_of_cons. by left.
  - right. exists e'. split; [|reflexivity]. apply elem_of_cons. by right.
Qed.

(** X7.  The lookup stops at the first entry of negative value: what the
    table holds after it plays no part.  The label found is the label of
    that entry or of an entry before it. *)
Theorem scan_labels_stops_at_closing_entry (entries rest : list ValLabel)
    (sentinel : ValLabel) (x : Z) :
  Forall (fun e => 0 <= val e) entries -> val sentinel < 0 ->
  scan_labels (entries ++ sentinel :: rest) x None
  = scan_labels (entries ++ [sentinel]) x None
  /\ exists e, e ∈ entries ++ [sentinel]
       /\ scan_labels (entries ++ sentinel :: rest) x None = Some (label e).
Proof.
  intros Hpos Hneg.
  rewrite !(scan_labels_entries sentinel _ x entries Hpos Hneg).
  split; [reflexivity|].
  destruct (after_entries x None entries) as [txt|] eqn:Hafter; cbn.
  - destruct (after_entries_label x entries None txt Hafter)
      as [Hnone|(e & Hin & ->)]; [discriminate Hnone|].
    exists e. split; [|reflexivity]. apply elem_of_app. by left.
  - exists sentinel. split; [|reflexivity].
    apply elem_of_app. right. by apply list_elem_of_singleton.
Qed.

(** A table with two entries after its closing entry. *)
Lemma scan_labels_stops_at_closing_entry_witness :
  Forall (fun e => 0 <= val e) [VL 0 "A"; VL 2 "B"]
  /\ val (VL (-1) "R") < 0
  /\ scan_labels [VL 0 "A"; VL 2 "B"; VL (-1) "R"; VL 2 "C"; VL (-1) "S"] 2 None
     = scan_labels [VL 0 "A"; VL 2 "B"; VL (-1) "R"] 2 None.
Proof.
  assert (H1 : Forall (fun e => 0 <= val e) [VL 0 "A"; VL 2 "B"])
    by (repeat constructor; cbn; lia).
  assert (H2 : val (VL (-1) "R") < 0) by (cbn; lia).
  split; [exact H1|]. split; [exact H2|].
  exact (proj1 (scan_labels_stops_at_closing_entry [VL 0 "A"; VL 2 "B"]
                  [VL 2 "C"; VL (-1) "S"] (VL (-1) "R") 2 H1 H2)).
Defined.

Lemma decode_value_little_endian (b0 b1 b2 : Z) (rest : list Z) :
  is_u8 b1 -> is_u8 b2 ->
  decode_value (b0 :: b1 :: b2 :: rest) = b1 + 256 * b2.
Proof.
  unfold is_u8. intros H1 H2.
  assert (Hv : is_u16 (b1 + 256 * b2)) by (unfold is_u16; lia).
  pose proof (decode_value_bytes b0 (b1 + 256 * b2) rest Hv) as Hdec.
  assert (Hlo : Z.land (b1 + 256 * b2) 0xFF = b1).
  { change 0xFF with (Z.ones 8). rewrite Z.land_ones by lia.
    change (2 ^ 8) with 256. replace (b1 + 256 * b2) with (b1 + b2 * 256) by lia.
    rewrite Z.mod_add by lia. apply Z.mod_small. lia. }
  assert (Hhi : Z.shiftr (b1 + 256 * b2) 8 = b2).
  { rewrite Z.shiftr_div_pow2 by lia. change (2 ^ 8) with 256.
    replace (b1 + 256 * b2) with (b1 + b2 * 256) by lia.
    rewrite Z.div_add by lia. rewrite Z.div_small by lia. lia. }
  by rewrite Hlo, Hhi in Hdec.
Qed.

(** X8.  A read transaction that returns 0 after the device delivered at
    least three bytes hands over the 16-bit value whose low byte is the
    second and whose high byte is the third byte delivered; the first byte
    and the bytes after the third do not enter the value. *)
Theorem read_value_little_endian (dev : hid_device) (regnum value v d0 d1 d2 : Z)
    (rest : list Z) (t t' : trace) :
  received_data dev regnum t = d0 :: d1 :: d2 :: rest ->
  cm6206_read dev regnum value t = Ret (0, v) t' ->
  v = u8 d1 + 256 * u8 d2 /\ is_u16 v.
Proof.
  intros Hdata Hread. rewrite cm6206_read_unfold in Hread.
  destruct (negb (sent_count dev regnum t =? 5)); [discriminate Hread|].
  destruct (negb (received_count dev regnum t =? 3)); [discriminate Hread|].
  destruct (marker_guard (reply_buf dev regnum t)); [discriminate Hread|].
  injection Hread as <- _.
  unfold reply_buf. rewrite Hdata. cbn [take Z.to_nat Pos.to_nat Pos.iter_op
    Nat.add read_request store_bytes].
  split; [|apply u16_range].
  change (Z.to_nat 5) with 5%nat. cbn [take store_bytes].
  apply decode_value_little_endian; apply u8_range.
Qed.

(** Register 3 of a codec at its reset values: 0x7F and 0x14 give 0x147F. *)
Lemma read_value_little_endian_witness :
  received_data (codec REG_DEFAULT) 3 [] = [0x20; 0x7F; 0x14]
  /\ cm6206_read (codec REG_DEFAULT) 3 0 []
     = Ret (0, 0x147F) (after_receive (codec REG_DEFAULT) 3 [])
  /\ 0x147F = u8 0x7F + 256 * u8 0x14.
Proof.
  split; [reflexivity|]. split; [reflexivity|].
  exact (proj1 (read_value_little_endian (codec REG_DEFAULT) 3 0 0x147F
                  0x20 0x7F 0x14 [] [] _ eq_refl eq_refl)).
Defined.

Lemma read_ok_u16 (n : nat) (evs : list event) (v : Z) :
  read_ok n evs v -> is_u16 v /\ length evs = 2%nat.
Proof. intros (data & -> & _ & ->). split; [apply u16_range|reflexivity]. Qed.

Lemma refresh_returns (dev : hid_device) (regbuf regbuf' : list Z)
    (t t' : trace) :
  length regbuf = NUM_REGS ->
  readAllRegisters dev regbuf t = Ret regbuf' t' ->
  length regbuf' = NUM_REGS
  /\ Forall is_u16 regbuf'
  /\ length t' = (length t + 12)%nat.
Proof.
  intros Hlen Hrun. unfold readAllRegisters in Hrun.
  destruct (read_loop dev NUM_REGS 0 regbuf t)
    as [(txns & Hall & Heq)|(k & txns & bad & _ & _ & _ & Heq)];
    rewrite Heq in Hrun; [|discriminate Hrun].
  injection Hrun as <- <-.
  assert (Htx : length txns = NUM_REGS)
    by (by rewrite <- (Forall2_length _ _ _ Hall), length_seq).
  rewrite <- (app_nil_r regbuf), list_inserts_0_r, app_nil_r
    by (by rewrite length_fmap, Htx).
  split; [by rewrite length_fmap|]. split.
  - apply Forall_fmap. clear Heq Htx.
    induction Hall as [|n tx ns txns Hok _ IH]; constructor; [|exact IH].
    by apply (read_ok_u16 n tx.1 tx.2).
  - rewrite length_app. f_equal. clear Heq.
    change 12%nat with (2 * NUM_REGS)%nat. rewrite <- Htx. clear Htx.
    induction Hall as [|n tx ns txns Hok _ IH]; [reflexivity|].
    cbn [fmap list_fmap concat]. rewrite length_app, IH.
    destruct (read_ok_u16 _ _ _ Hok) as [_ ->]. cbn [length]. lia.
Qed.



(* ===================================================================== *)
(** * Properties of the command line *)

Lemma range_test_false (lval hi : Z) :
  (lval <? 0) || (hi <? lval) = false -> 0 <= lval <= hi.
Proof. intros H. apply orb_false_elim in H as [H1 H2]. lia. Qed.

Lemma cfg_initial_in_range : config_in_range cfg_initial.
Proof. unfold config_in_range, is_u16, NUM_REGS. cbn. lia. Qed.

(** The ranges are kept along the arguments, however many there are. *)
Lemma parse_in_range (strtol : string -> Z) (n : nat) :
  forall (args : list string) (cfg cfg' : config),
    (length args <= n)%nat ->
    config_in_range cfg ->
    parseArgumentsToConfig strtol args cfg = Parsed cfg' ->
    config_in_range cfg'.
Proof.
  induction n as [|n IH]; intros args cfg cfg' Hlen Hcfg Hparse.
  - destruct args; [|cbn in Hlen; lia]. by injection Hparse as <-.
  - destruct args as [|arg rest]; [by injection Hparse as <-|].
    cbn [length] in Hlen. cbn [parseArgumentsToConfig] in Hparse.
    destruct Hcfg as (Hreg & Hmask & Hval).
    repeat match type of Hparse with
      | (if String.eqb ?a ?b then _ else _) = _ =>
          destruct (String.eqb a b)
      | match ?l with [] => _ | _ :: _ => _ end = _ =>
          destruct l as [|value rest']; [discriminate Hparse|]; cbn [length] in Hlen
      | (if (?x <? 0) || (?hi <? ?x) then _ else _) = _ =>
          let Hr := fresh "Hr" in
          destruct ((x <? 0) || (hi <? x)) eqn:Hr;
            [discriminate Hparse|apply range_test_false in Hr]
      end;
      try discriminate Hparse;
      (eapply IH; [| |exact Hparse]; [lia|]);
      unfold config_in_range, is_u16, NUM_REGS in *; cbn in *; lia.
Qed.

(** X10.  A command line that is accepted leaves the register number within
    0 to 5 and the mask and the value within 16 bits, as they are at the
    start: whatever [strtol] makes of the arguments, no transaction is
    begun with a number out of its range. *)
Theorem parsed_config_in_range (strtol : string -> Z) (args : list string)
    (cfg : config) :
  parseArgumentsToConfig strtol args cfg_initial = Parsed cfg ->
  config_in_range cfg.
Proof.
  intros Hparse.
  exact (parse_in_range strtol (length args) args cfg_initial cfg (le_n _)
           cfg_initial_in_range Hparse).
Qed.

(** [-r 2 -m 0x6000 -q], the third example of the help text. *)
Lemma parsed_config_in_range_witness :
  parseArgumentsToConfig strtol_of_examples ["-r"; "2"; "-m"; "0x6000"; "-q"]
    cfg_initial
  = Parsed (Config false true false true 2 false 0 0x6000 false)
  /\ config_in_range (Config false true false true 2 false 0 0x6000 false).
Proof.
  split; [reflexivity|].
  exact (parsed_config_in_range strtol_of_examples
           ["-r"; "2"; "-m"; "0x6000"; "-q"] _ eq_refl).
Defined.

(** X11.  The shortcut [-DMASPDIF] sets the register, the mask, the value
    and the write command as [-r 0 -m 0x8000 -w 0x8000] does, and
    [-DMADAC] as [-r 0 -m 0x8000 -w 0x0000] does; the long forms set the
    read command as well, which the shortcuts leave as it is. *)
Theorem shortcuts_are_long_forms_without_read (strtol : string -> Z)
    (rest : list string) (cfg : config) :
  strtol "0" = 0 -> strtol "0x8000" = 0x8000 -> strtol "0x0000" = 0x0000 ->
  parseArgumentsToConfig strtol
    ("-r" :: "0" :: "-m" :: "0x8000" :: "-w" :: "0x8000" :: rest) cfg
  = parseArgumentsToConfig strtol ("-DMASPDIF" :: rest) (set_cmdRead cfg)
  /\ parseArgumentsToConfig strtol
       ("-r" :: "0" :: "-m" :: "0x8000" :: "-w" :: "0x0000" :: rest) cfg
     = parseArgumentsToConfig strtol ("-DMADAC" :: rest) (set_cmdRead cfg)
  /\ (parseArgumentsToConfig strtol ["-DMASPDIF"] cfg_initial
      = Parsed (Config false false false false 0 true 0x8000 0x8000 false))
  /\ (parseArgumentsToConfig strtol
        ["-r"; "0"; "-m"; "0x8000"; "-w"; "0x8000"] cfg_initial
      = Parsed (Config false false false true 0 true 0x8000 0x8000 false)).
Proof.
  intros H0 H8 Hz.
  repeat split; cbn [parseArgumentsToConfig String.eqb Ascii.eqb Bool.eqb];
    rewrite ?H0, ?H8, ?Hz; reflexivity.
Qed.

Lemma shortcuts_are_long_forms_without_read_witness :
  strtol_of_examples "0" = 0
  /\ strtol_of_examples "0x8000" = 0x8000
  /\ strtol_of_examples "0x0000" = 0x0000
  /\ parseArgumentsToConfig strtol_of_examples
       ["-r"; "0"; "-m"; "0x8000"; "-w"; "0x8000"; "-A"] cfg_initial
     = parseArgumentsToConfig strtol_of_examples ["-DMASPDIF"; "-A"]
         (set_cmdRead cfg_initial).
Proof.
  split; [reflexivity|]. split; [reflexivity|]. split; [reflexivity|].
  exact (proj1 (shortcuts_are_long_forms_without_read strtol_of_examples ["-A"]
                  cfg_initial eq_refl eq_refl eq_refl)).
Defined.

(** Flags are passed over, each setting its part of the configuration. *)
Lemma parse_flags (strtol : string -> Z) (flags : list string) :
  Forall (fun a => is_flag a = true) flags ->
  forall cfg, exists cfg',
    forall args,
      parseArgumentsToConfig strtol (flags ++ args) cfg
      = parseArgumentsToConfig strtol args cfg'.
Proof.
  induction 1 as [|a flags Ha _ IH]; intros cfg; [by exists cfg|].
  unfold is_flag in Ha.
  repeat (apply orb_prop in Ha as [Ha|Ha]);
    apply String.eqb_eq in Ha; subst a;
    match goal with
    | |- context [parseArgumentsToConfig _ ((?a :: _) ++ _) _] =>
        let c := eval cbn in
          (match parseArgumentsToConfig (fun _ => 0) [a] cfg with
           | Parsed c => c
           | ParseExit _ => cfg
           end) in
        destruct (IH c) as [cfg' Hcfg']; exists cfg'; intros args;
        rewrite <- Hcfg'; reflexivity
    end.
Qed.

(** X12.  After any number of flags, the command line ends the process
    with [EXIT_FAILURE] at an argument that is no option, at [-m], [-r] or
    [-w] as the last argument, and at a value that [strtol] puts below 0 or
    above 0xFFFF (above 5 for [-r]); it ends the process with status 0 at
    [-h].  The fourth example of the help text, [-r 0 -w 0 0x8000 -m
    0x8000], is ended at its fifth argument. *)
Theorem command_line_rejections (strtol : string -> Z) (flags rest : list string)
    (arg value : string) (cfg : config) :
  Forall (fun a => is_flag a = true) flags ->
  (is_option arg = false ->
   parseArgumentsToConfig strtol (flags ++ arg :: rest) cfg = ParseExit EXIT_FAILURE)
  /\ parseArgumentsToConfig strtol (flags ++ ["-m"]) cfg = ParseExit EXIT_FAILURE
  /\ parseArgumentsToConfig strtol (flags ++ ["-r"]) cfg = ParseExit EXIT_FAILURE
  /\ parseArgumentsToConfig strtol (flags ++ ["-w"]) cfg = ParseExit EXIT_FAILURE
  /\ (strtol value < 0 \/ 0xFFFF < strtol value ->
      parseArgumentsToConfig strtol (flags ++ "-m" :: value :: rest) cfg
      = ParseExit EXIT_FAILURE
      /\ parseArgumentsToConfig strtol (flags ++ "-w" :: value :: rest) cfg
         = ParseExit EXIT_FAILURE)
  /\ (strtol value < 0 \/ 5 < strtol value ->
      parseArgumentsToConfig strtol (flags ++ "-r" :: value :: rest) cfg
      = ParseExit EXIT_FAILURE)
  /\ parseArgumentsToConfig strtol (flags ++ "-h" :: rest) cfg = ParseExit 0
  /\ (strtol "0" = 0 ->
      parseArgumentsToConfig strtol
        ["-r"; "0"; "-w"; "0"; "0x8000"; "-m"; "0x8000"] cfg
      = ParseExit EXIT_FAILURE).
Proof.
  intros Hflags. destruct (parse_flags strtol flags Hflags cfg) as [cfg' Hskip].
  rewrite !Hskip.
  split; [|split; [reflexivity|split; [reflexivity|split; [reflexivity|]]]].
  - unfold is_option, is_flag. intros Hnone.
    repeat (apply orb_false_elim in Hnone as [Hnone ?]).
    cbn [parseArgumentsToConfig].
    repeat match goal with H : String.eqb arg _ = false |- _ => rewrite H; clear H end.
    reflexivity.
  - split; [|split; [|split; [reflexivity|]]].
    + intros Hout. cbn [parseArgumentsToConfig String.eqb Ascii.eqb Bool.eqb].
      assert (Ht : (strtol value <? 0) || (0xFFFF <? strtol value) = true).
      { apply orb_true_iff. destruct Hout; [left|right]; by apply Z.ltb_lt. }
      by rewrite Ht.
    + intros Hout. cbn [parseArgumentsToConfig String.eqb Ascii.eqb Bool.eqb].
      assert (Ht : (strtol value <? 0) || (Z.of_nat NUM_REGS - 1 <? strtol value) = true).
      { apply orb_true_iff. destruct Hout; [left|right]; apply Z.ltb_lt;
          unfold NUM_REGS; lia. }
      by rewrite Ht.
    + intros H0. cbn [parseArgumentsToConfig String.eqb Ascii.eqb Bool.eqb].
      rewrite H0. reflexivity.
Qed.

(** [-q -v 0x8000]: a number where an option is expected. *)
Lemma command_line_rejections_witness :
  Forall (fun a => is_flag a = true) ["-q"; "-v"]
  /\ is_option "0x8000" = false
  /\ parseArgumentsToConfig strtol_of_examples ["-q"; "-v"; "0x8000"] cfg_initial
     = ParseExit EXIT_FAILURE
  /\ 0xFFFF < strtol_of_examples "70000"
  /\ parseArgumentsToConfig strtol_of_examples ["-q"; "-v"; "-m"; "70000"] cfg_initial
     = ParseExit EXIT_FAILURE.
Proof.
  assert (H : Forall (fun a => is_flag a = true) ["-q"; "-v"])
    by (repeat constructor).
  pose proof (command_line_rejections strtol_of_examples ["-q"; "-v"] []
                "0x8000" "70000" cfg_initial H) as (Hunknown & _ & _ & _ & Hrange & _).
  split; [exact H|]. split; [reflexivity|]. split; [exact (Hunknown eq_refl)|].
  assert (Hbig : 0xFFFF < strtol_of_examples "70000") by reflexivity.
  split; [exact Hbig|].
  exact (proj1 (Hrange (or_intror Hbig))).
Defined.

(* ===================================================================== *)
(** * Properties of [main] *)

Lemma read_ok_requests (n : nat) (evs : list event) (v : Z) :
  read_ok n evs v -> Forall is_read_request evs.
Proof. intros (data & -> & _). by repeat constructor. Qed.

Lemma read_failed_requests (n : nat) (evs : list event) :
  read_failed n evs -> Forall is_read_request evs.
Proof.
  intros [(w & _ & ->)|(r & data & -> & _)]; by repeat constructor.
Qed.

(** The refresh adds requests for registers and receives to the trace, and
    nothing else. *)
Lemma refresh_events (dev : hid_device) (regbuf : list Z) (t : trace) :
  exists evs,
    trace_of (readAllRegisters dev regbuf t) = t ++ evs
    /\ Forall is_read_request evs.
Proof.
  unfold readAllRegisters.
  assert (Hall : forall k (txns : list (list event * Z)),
            Forall2 (fun n tx => read_ok n tx.1 tx.2) (seq 0 k) txns ->
            Forall is_read_request (concat (txns.*1))).
  { intros k txns H. generalize dependent 0%nat. intros start H.
    induction H as [|n tx ns txns Hok _ IH]; cbn; [constructor|].
    apply Forall_app. split; [by apply (read_ok_requests n _ tx.2)|exact IH]. }
  destruct (read_loop dev NUM_REGS 0 regbuf t)
    as [(txns & Htx & ->)|(k & txns & bad & _ & Htx & Hbad & ->)]; cbn.
  - eexists. split; [reflexivity|]. by apply (Hall NUM_REGS).
  - eexists. split; [reflexivity|]. apply Forall_app. split.
    + by apply (Hall (k - 0)%nat).
    + by apply (read_failed_requests k).
Qed.

(** X13.  A run with neither [-INIT] nor a write command sends no report
    that sets a register: all it sends are read requests, whatever the
    device answers and whatever else the command line asks for. *)
Theorem read_only_run_never_writes (cfg : config) (dev : hid_device) :
  cfg_cmdInit cfg = false -> cfg_cmdWrite cfg = false ->
  Forall is_read_request (trace_of (main_commands cfg dev [])).
Proof.
  intros Hinit Hwrite. unfold main_commands. rewrite Hinit, Hwrite.
  destruct (refresh_events dev [0; 0; 0; 0; 0; 0] []) as (evs & Htrace & Hevs).
  unfold mbind, io_bind, bind, mret, io_ret, ret.
  destruct (readAllRegisters dev [0; 0; 0; 0; 0; 0] []) as [regbuf t|st why t];
    cbn in Htrace |- *; by rewrite Htrace.
Qed.

(** [-r 2 -m 0x6000 -q] on a codec at its reset values: twelve events, and
    the masked value 0x6000 of register 2 as the output. *)
Lemma read_only_run_never_writes_witness :
  cfg_cmdInit (Config false true false true 2 false 0 0x6000 false) = false
  /\ cfg_cmdWrite (Config false true false true 2 false 0 0x6000 false) = false
  /\ out_read <$> returned (main_commands
       (Config false true false true 2 false 0 0x6000 false) (codec REG_DEFAULT) [])
     = Some (Some 0x6000)
  /\ Forall is_read_request
       (trace_of (main_commands (Config false true false true 2 false 0 0x6000 false)
                    (codec REG_DEFAULT) [])).
Proof.
  split; [reflexivity|]. split; [reflexivity|]. split; [reflexivity|].
  exact (read_only_run_never_writes
           (Config false true false true 2 false 0 0x6000 false)
           (codec REG_DEFAULT) eq_refl eq_refl).
Defined.

Lemma init_loop_regbuf (dev : hid_device) (count : nat) :
  forall (start : nat) (regbuf regbuf' : list Z) (t t' : trace),
    for_regs (init_register dev) start count regbuf t = Ret regbuf' t' ->
    regbuf' = regbuf.
Proof.
  induction count as [|count IH]; intros start regbuf regbuf' t t'; cbn [for_regs].
  - by intros [= <- _].
  - unfold mbind, io_bind, bind. rewrite init_register_step.
    destruct (_ =? 5); [apply IH|discriminate].
Qed.

(** X14.  When [main] gets as far as its output, the register buffer it
    shows has [NUM_REGS] entries of 16 bits and is the result of a refresh
    that ended the traffic with the device: every report that sets a
    register was sent before the values shown were read. *)
Theorem shown_registers_are_fresh (cfg : config) (dev : hid_device)
    (out : output) (t' : trace) :
  main_commands cfg dev [] = Ret out t' ->
  length (out_regbuf out) = NUM_REGS
  /\ Forall is_u16 (out_regbuf out)
  /\ exists (regbuf : list Z) (t : trace),
       length regbuf = NUM_REGS
       /\ readAllRegisters dev regbuf t = Ret (out_regbuf out) t'.
Proof.
  intros Hmain.
  assert (Hfresh : exists (regbuf : list Z) (t : trace),
            length regbuf = NUM_REGS
            /\ readAllRegisters dev regbuf t = Ret (out_regbuf out) t').
  { unfold main_commands in Hmain.
    unfold mbind, io_bind, bind, mret, io_ret, ret in Hmain.
    destruct (readAllRegisters dev [0; 0; 0; 0; 0; 0] []) as [rb0 t0|] eqn:H0;
      [|discriminate Hmain].
    pose proof (proj1 (refresh_returns dev [0; 0; 0; 0; 0; 0] rb0 [] t0 eq_refl H0))
      as Hlen0.
    destruct (cfg_cmdInit cfg).
    - unfold cmd_init, mbind, io_bind, bind in Hmain.
      destruct (for_regs (init_register dev) 0 NUM_REGS rb0 t0) as [rb1 t1|] eqn:H1;
        [|discriminate Hmain].
      apply init_loop_regbuf in H1 as Hrb1. subst rb1.
      destruct (readAllRegisters dev rb0 t1) as [rb2 t2|] eqn:H2;
        [|discriminate Hmain].
      pose proof (proj1 (refresh_returns dev _ _ _ _ Hlen0 H2)) as Hlen2.
      destruct (cfg_cmdWrite cfg).
      + rewrite cmd_write_sends_masked_value in Hmain. cbn zeta in Hmain.
        destruct (_ =? 5); [|discriminate Hmain].
        destruct (readAllRegisters dev rb2 _) as [rb3 t3|] eqn:H3;
          [|discriminate Hmain].
        injection Hmain as <- <-. by exists rb2; eexists.
      + injection Hmain as <- <-. by exists rb0, t1.
    - destruct (cfg_cmdWrite cfg).
      + rewrite cmd_write_sends_masked_value in Hmain. cbn zeta in Hmain.
        destruct (_ =? 5); [|discriminate Hmain].
        destruct (readAllRegisters dev rb0 _) as [rb3 t3|] eqn:H3;
          [|discriminate Hmain].
        injection Hmain as <- <-. by exists rb0; eexists.
      + injection Hmain as <- <-. by exists [0; 0; 0; 0; 0; 0], []. }
  destruct Hfresh as (regbuf & t & Hlen & Hrun).
  destruct (refresh_returns dev _ _ _ _ Hlen Hrun) as (Hl & Hu & _).
  split; [exact Hl|]. split; [exact Hu|]. by exists regbuf, t.
Qed.

(** [-DMASPDIF] on a codec that holds the initialization values. *)
Lemma shown_registers_are_fresh_witness :
  returned (main_commands
    (Config false false false false 0 true 0x8000 0x8000 false) (codec REG_INIT) [])
  = Some (Output REG_INIT None None)
  /\ Forall is_u16 REG_INIT.
Proof.
  split; [reflexivity|].
  exact (proj1 (proj2 (shown_registers_are_fresh
    (Config false false false false 0 true 0x8000 0x8000 false) (codec REG_INIT)
    (Output REG_INIT None None)
    (trace_of (main_commands
       (Config false false false false 0 true 0x8000 0x8000 false)
       (codec REG_INIT) []))
    eq_refl))).
Defined.

(* ===================================================================== *)
(** * The commands on a register file *)

Lemma split_bytes (v : Z) : Z.land v 0xFF + 256 * Z.shiftr v 8 = v.
Proof.
  change 0xFF with (Z.ones 8). rewrite Z.land_ones, Z.shiftr_div_pow2 by lia.
  change (2 ^ 8) with 256. pose proof (Z.div_mod v 256 ltac:(lia)). lia.
Qed.

Lemma addressed_snoc (t : trace) (frame : list Z) (r : Z) :
  addressed (t ++ [Write frame r]) = Z.to_nat (byte_at frame 4).
Proof. unfold addressed. by rewrite last_snoc. Qed.

Lemma u8_of_small_nat (n : nat) : (n < 256)%nat -> u8 (Z.of_nat n) = Z.of_nat n.
Proof. intros Hn. apply u8_id. unfold is_u8. lia. Qed.

(** A read of the register file delivers what the register holds and
    leaves the registers as they are. *)
Lemma register_file_read (regs hw : list Z) (n : nat) (value : Z) (t : trace) :
  hw_regs regs t = hw -> (n < 256)%nat -> is_u16 (default 0 (hw !! n)) ->
  exists t1,
    cm6206_read (register_file regs) (Z.of_nat n) value t
    = Ret (0, default 0 (hw !! n)) t1
    /\ hw_regs regs t1 = hw.
Proof.
  intros Hhw Hn Hv. rewrite cm6206_read_unfold.
  assert (Hs : sent_count (register_file regs) (Z.of_nat n) t = 5) by reflexivity.
  assert (Hr : received_count (register_file regs) (Z.of_nat n) t = 3) by reflexivity.
  assert (Hhw1 : hw_regs regs (after_send (register_file regs) (Z.of_nat n) t) = hw).
  { unfold after_send, hw_regs. rewrite foldl_app. cbn. exact Hhw. }
  assert (Hbuf : reply_buf (register_file regs) (Z.of_nat n) t
                 = [0x20; Z.land (default 0 (hw !! n)) 0xFF;
                    Z.shiftr (default 0 (hw !! n)) 8; 0x00; u8 (Z.of_nat n)]).
  { unfold reply_buf, received_data. cbn [read_answer register_file snd].
    rewrite Hhw1. unfold after_send. rewrite addressed_snoc.
    cbn [read_request byte_at lookup list_lookup default from_option id].
    rewrite u8_of_small_nat, Nat2Z.id by done.
    cbn [take store_bytes read_request]. change (u8 32) with 32.
    by rewrite (u8_id (Z.land _ 0xFF)), (u8_id (Z.shiftr _ 8)), u8_of_small_nat
      by auto using low_byte_u8, high_byte_u8. }
  rewrite Hs, Hr, Hbuf. cbn [Z.eqb Pos.eqb negb].
  change (marker_guard _) with false. cbn iota.
  rewrite decode_value_bytes by done.
  eexists. split; [reflexivity|].
  unfold after_receive, hw_regs. rewrite foldl_app. cbn. exact Hhw1.
Qed.

(** A write to the register file is transferred and sets the register. *)
Lemma register_file_write (regs : list Z) (n : nat) (v : Z) (t : trace) :
  (n < 256)%nat -> is_u16 v ->
  cm6206_write (register_file regs) (Z.of_nat n) v t
  = Ret 0 (t ++ [Write (write_request (Z.of_nat n) v) 5])
  /\ hw_regs regs (t ++ [Write (write_request (Z.of_nat n) v) 5])
     = <[n := v]> (hw_regs regs t).
Proof.
  intros Hn Hv. rewrite cm6206_write_unfold. split; [reflexivity|].
  unfold hw_regs. rewrite foldl_app. cbn [foldl apply_report].
  unfold write_request.
  cbn [byte_at lookup list_lookup default from_option id Z.eqb Pos.eqb].
  rewrite u8_of_small_nat, Nat2Z.id by done.
  rewrite (u8_id (Z.land v 0xff)), (u8_id (Z.shiftr v 8))
    by auto using low_byte_u8, high_byte_u8.
  by rewrite split_bytes.
Qed.

(** One iteration of the refresh on the register file. *)
Lemma register_file_read_register (regs hw : list Z) (n : nat) (h : Z)
    (regbuf : list Z) (t : trace) :
  hw_regs regs t = hw -> (n < 256)%nat -> hw !! n = Some h -> is_u16 h ->
  exists t1,
    read_register (register_file regs) n regbuf t = Ret (<[n := h]> regbuf) t1
    /\ hw_regs regs t1 = hw.
Proof.
  intros Hhw Hn Hh Hu.
  destruct (register_file_read regs hw n (default 0 (regbuf !! n)) t Hhw Hn)
    as (t1 & Hread & Hhw1); [by rewrite Hh|].
  exists t1. split; [|exact Hhw1].
  unfold read_register, mbind, io_bind, bind. rewrite Hread, Hh. reflexivity.
Qed.

(** The refresh loop on the register file copies the registers into the
    register buffer. *)
Lemma register_file_loop (regs hw : list Z) (count : nat) :
  forall (start : nat) (regbuf : list Z) (t : trace),
    hw_regs regs t = hw ->
    (start + count <= length hw)%nat -> (length hw <= 256)%nat ->
    Forall is_u16 hw ->
    exists t1,
      for_regs (read_register (register_file regs)) start count regbuf t
      = Ret (list_inserts start (take count (drop start hw)) regbuf) t1
      /\ hw_regs regs t1 = hw.
Proof.
  induction count as [|count IH]; intros start regbuf t Hhw Hlen Hmax Hu16.
  - exists t. by split.
  - destruct (lookup_lt_is_Some_2 hw start ltac:(lia)) as [h Hh].
    destruct (register_file_read_register regs hw start h regbuf t Hhw
                ltac:(lia) Hh ltac:(by eapply Forall_lookup_1))
      as (t1 & Hstep & Hhw1).
    destruct (IH (S start) (<[start := h]> regbuf) t1 Hhw1 ltac:(lia) Hmax Hu16)
      as (t2 & Hloop & Hhw2).
    exists t2. split; [|exact Hhw2].
    cbn [for_regs]. unfold mbind, io_bind, bind. rewrite Hstep, Hloop. f_equal.
    rewrite (drop_S hw h start Hh). cbn [take list_inserts].
    by rewrite list_insert_inserts_lt by lia.
Qed.

Lemma register_file_refresh (regs hw regbuf : list Z) (t : trace) :
  hw_regs regs t = hw -> length hw = NUM_REGS -> Forall is_u16 hw ->
  length regbuf = NUM_REGS ->
  exists t1,
    readAllRegisters (register_file regs) regbuf t = Ret hw t1
    /\ hw_regs regs t1 = hw.
Proof.
  intros Hhw Hlen Hu16 Hrb.
  destruct (register_file_loop regs hw NUM_REGS 0 regbuf t Hhw)
    as (t1 & Hloop & Hhw1); [lia|unfold NUM_REGS in Hlen; lia|exact Hu16|].
  exists t1. split; [|exact Hhw1]. unfold readAllRegisters. rewrite Hloop. f_equal.
  rewrite drop_0, take_ge by lia.
  rewrite <- (app_nil_r regbuf), list_inserts_0_r, app_nil_r by lia. reflexivity.
Qed.

(** X15.  On a codec that keeps what is written to it, a run whose only
    command is a write sets the chosen register to the masked value of what
    the register held and leaves the other registers as they were; the
    register buffer shown at the end holds exactly these register values.
    In the register written, a bit under the mask has the bit of the value
    given, and a bit outside the mask is as before. *)
Theorem masked_write_on_register_file (regs : list Z) (cfg : config) (reg : nat) :
  length regs = NUM_REGS -> Forall is_u16 regs ->
  (reg < NUM_REGS)%nat -> cfg_reg cfg = Z.of_nat reg ->
  cfg_cmdInit cfg = false -> cfg_cmdWrite cfg = true ->
  is_u16 (cfg_writeVal cfg) ->
  (exists out t,
     main_commands cfg (register_file regs) [] = Ret out t
     /\ hw_regs regs t = out_regbuf out
     /\ out_regbuf out
        = <[reg := newvalue (default 0 (regs !! reg)) (cfg_mask cfg) (cfg_writeVal cfg)]>
            regs)
  /\ (forall i, 0 <= i ->
        Z.testbit
          (newvalue (default 0 (regs !! reg)) (cfg_mask cfg) (cfg_writeVal cfg)) i
        = if Z.testbit (cfg_mask cfg) i
          then Z.testbit (cfg_writeVal cfg) i
          else Z.testbit (default 0 (regs !! reg)) i).
Proof.
  intros Hlen Hu16 Hreg Hcfg Hinit Hwrite Hval.
  set (old := default 0 (regs !! reg)).
  set (new := newvalue old (cfg_mask cfg) (cfg_writeVal cfg)).
  assert (Hold : is_u16 old).
  { unfold old. destruct (lookup_lt_is_Some_2 regs reg ltac:(lia)) as [h Hh].
    rewrite Hh. cbn. by eapply Forall_lookup_1. }
  split; [|intros i Hi; by apply newvalue_testbit].
  destruct (register_file_refresh regs regs [0; 0; 0; 0; 0; 0] [] eq_refl Hlen Hu16
              eq_refl) as (t1 & Hrun1 & Hhw1).
  destruct (register_file_write regs reg new t1 ltac:(unfold NUM_REGS in Hreg; lia)
              (u16_range _)) as (Hwr & Hhw2).
  rewrite Hhw1 in Hhw2.
  destruct (register_file_refresh regs (<[reg := new]> regs) regs _ Hhw2) as
    (t3 & Hrun3 & Hhw3);
    [by rewrite length_insert|by apply Forall_insert; [|apply u16_range]|exact Hlen|].
  eexists (Output (<[reg := new]> regs) _ _), t3.
  split; [|split; [exact Hhw3|reflexivity]].
  unfold main_commands, mbind, io_bind, bind, mret, io_ret, ret.
  rewrite Hrun1, Hinit, Hwrite, Hcfg, Nat2Z.id.
  unfold cmd_write, mbind, io_bind, bind. fold old. fold new.
  rewrite Hwr. cbn [Z.ltb Z.compare]. rewrite Hrun3. reflexivity.
Qed.

(** [-DMASPDIF] on a codec at its reset values: register 0 goes from 0x2000
    to 0xA000. *)
Lemma masked_write_on_register_file_witness :
  length REG_DEFAULT = NUM_REGS /\ Forall is_u16 REG_DEFAULT
  /\ out_regbuf <$> returned (main_commands
       (Config false false false false 0 true 0x8000 0x8000 false)
       (register_file REG_DEFAULT) [])
     = Some [0xA000; 0x3002; 0x6004; 0x147f; 0x0000; 0x3000].
Proof.
  assert (Hu : Forall is_u16 REG_DEFAULT)
    by (repeat constructor; unfold is_u16; lia).
  split; [reflexivity|]. split; [exact Hu|].
  destruct (masked_write_on_register_file REG_DEFAULT
              (Config false false false false 0 true 0x8000 0x8000 false) 0
              eq_refl Hu ltac:(unfold NUM_REGS; lia) eq_refl eq_refl eq_refl
              ltac:(unfold is_u16; cbn; lia))
    as ((out & t & Hrun & _ & Hout) & _).
  rewrite Hrun. cbn [returned fmap option_fmap option_map]. by rewrite Hout.
Defined.

(** X16.  On a codec that keeps what is written to it, a run whose only
    command is [-INIT] leaves the codec with the six initialization values,
    whatever it held before, and shows these values at the end. *)
Theorem init_on_register_file (regs : list Z) (cfg : config) :
  length regs = NUM_REGS -> Forall is_u16 regs ->
  cfg_cmdInit cfg = true -> cfg_cmdWrite cfg = false ->
  exists out t,
    main_commands cfg (register_file regs) [] = Ret out t
    /\ hw_regs regs t = REG_INIT
    /\ out_regbuf out = REG_INIT.
Proof.
  intros Hlen Hu16 Hinit Hwrite.
  destruct (register_file_refresh regs regs [0; 0; 0; 0; 0; 0] [] eq_refl Hlen Hu16
              eq_refl) as (t1 & Hrun1 & Hhw1).
  assert (Hloop : for_regs (init_register (register_file regs)) 0 NUM_REGS regs t1
                  = Ret regs (t1 ++ init_writes NUM_REGS)).
  { apply init_loop_ok. intros n Hn. unfold NUM_REGS in Hn.
    do 6 (destruct n as [|n]; [reflexivity|]). lia. }
  assert (Hhw2 : hw_regs regs (t1 ++ init_writes NUM_REGS) = REG_INIT).
  { unfold hw_regs in *. rewrite foldl_app, Hhw1.
    do 7 (destruct regs as [|? regs]; try discriminate Hlen). reflexivity. }
  destruct (register_file_refresh regs REG_INIT regs _ Hhw2 eq_refl) as
    (t3 & Hrun3 & Hhw3); [repeat constructor; unfold is_u16; lia|exact Hlen|].
  eexists (Output REG_INIT _ _), t3.
  split; [|split; [exact Hhw3|reflexivity]].
  unfold main_commands, mbind, io_bind, bind, mret, io_ret, ret.
  rewrite Hrun1, Hinit, Hwrite.
  unfold cmd_init, mbind, io_bind, bind. rewrite Hloop, Hrun3. reflexivity.
Qed.

Lemma init_on_register_file_witness :
  length REG_DEFAULT = NUM_REGS /\ Forall is_u16 REG_DEFAULT
  /\ out_regbuf <$> returned (main_commands
       (Config false false false false 0 false 0 0xFFFF true)
       (register_file REG_DEFAULT) [])
     = Some REG_INIT.
Proof.
  assert (Hu : Forall is_u16 REG_DEFAULT)
    by (repeat constructor; unfold is_u16; lia).
  split; [reflexivity|]. split; [exact Hu|].
  destruct (init_on_register_file REG_DEFAULT
              (Config false false false false 0 false 0 0xFFFF true)
              eq_refl Hu eq_refl eq_refl)
    as (out & t & Hrun & _ & Hout).
  rewrite Hrun. cbn [returned fmap option_fmap option_map]. by rewrite Hout.
Defined.

(* ===================================================================== *)
(** * The legend of the values *)

Lemma string_app_cons (x : Ascii.ascii) (a b : string) :
  String x a +:+ b = String x (a +:+ b).
Proof. reflexivity. Qed.

Lemma string_app_assoc (a b c : string) : (a +:+ b) +:+ c = a +:+ (b +:+ c).
Proof.
  induction a as [|x a IH]; [reflexivity|]. rewrite !string_app_cons. by f_equal.
Qed.

Lemma string_app_nil_r (a : string) : a +:+ EmptyString = a.
Proof.
  induction a as [|x a IH]; [reflexivity|]. rewrite string_app_cons. by f_equal.
Qed.

Lemma string_length_app (a b : string) :
  String.length (a +:+ b) = (String.length a + String.length b)%nat.
Proof.
  induction a as [|x a IH]; [reflexivity|]. rewrite string_app_cons.
  cbn [String.length Nat.add]. by f_equal.
Qed.

Lemma substring_prefix (a b : string) :
  String.substring 0 (String.length a) (a +:+ b) = a.
Proof.
  induction a as [|x a IH].
  - by destruct b.
  - rewrite string_app_cons. cbn [String.length String.substring]. by f_equal.
Qed.

(** Closing the legend replaces the last two characters by a brace. *)
Lemma close_legend_app (a c : string) :
  String.length c = 2%nat -> close_legend (a +:+ c) = a +:+ "}".
Proof.
  intros Hc. unfold close_legend.
  rewrite string_length_app, Hc.
  replace (String.length a + 2 - 2)%nat with (String.length a) by lia.
  by rewrite substring_prefix.
Qed.

Lemma sprintf_append_fits (strbuf text : string) :
  (String.length (strbuf +:+ text) < 128)%nat ->
  sprintf_append strbuf text = Some (strbuf +:+ text).
Proof.
  intros Hfit. unfold sprintf_append.
  by destruct (Nat.ltb_spec (String.length (strbuf +:+ text)) 128); [|lia].
Qed.

Lemma sprintf_append_overflow (strbuf text : string) :
  (128 <= String.length (strbuf +:+ text))%nat ->
  sprintf_append strbuf text = None.
Proof.
  intros Hover. unfold sprintf_append.
  by destruct (Nat.ltb_spec (String.length (strbuf +:+ text)) 128); [lia|].
Qed.

(** The loop of the legend writes the items of all entries before the
    closing one, provided that they fit. *)
Lemma legend_loop_entries (sentinel : ValLabel) (rest : list ValLabel)
    (entries : list ValLabel) :
  Forall (fun e => 0 <= val e) entries -> val sentinel < 0 ->
  forall strbuf,
    (String.length strbuf < 128)%nat ->
    legend_loop (entries ++ sentinel :: rest) strbuf
    = if (String.length (strbuf +:+ items_with_commas entries) <? 128)%nat
      then Some (strbuf +:+ items_with_commas entries)
      else None.
Proof.
  intros Hpos Hneg. induction Hpos as [|e entries He _ IH]; intros strbuf Hs;
    cbn [app legend_loop items_with_commas].
  - destruct (Z.leb_spec 0 (val sentinel)); [lia|].
    rewrite string_app_nil_r.
    by destruct (Nat.ltb_spec (String.length strbuf) 128); [|lia].
  - destruct (Z.leb_spec 0 (val e)); [|lia].
    assert (Hassoc : strbuf +:+ legend_item e +:+ ", " +:+ items_with_commas entries
                     = (strbuf +:+ legend_item e +:+ ", ")
                         +:+ items_with_commas entries).
    { by rewrite !string_app_assoc. }
    rewrite Hassoc.
    destruct (Nat.ltb_spec (String.length (strbuf +:+ legend_item e +:+ ", ")) 128)
      as [Hstep|Hstep].
    + rewrite sprintf_append_fits by done. cbn [mbind option_bind].
      by rewrite IH.
    + rewrite sprintf_append_overflow by done. cbn [mbind option_bind].
      destruct (Nat.ltb_spec
                  (String.length ((strbuf +:+ legend_item e +:+ ", ")
                                    +:+ items_with_commas entries)) 128)
        as [Hfit|_]; [|reflexivity].
      rewrite string_length_app in Hfit. lia.
Qed.

Lemma items_with_commas_separated (e : ValLabel) (entries : list ValLabel) :
  items_with_commas (e :: entries)
  = comma_separated (legend_item <$> e :: entries) +:+ ", ".
Proof.
  revert e. induction entries as [|e' entries IH]; intros e.
  - cbn [items_with_commas fmap list_fmap comma_separated].
    by rewrite string_app_nil_r.
  - change (items_with_commas (e :: e' :: entries))
      with (legend_item e +:+ ", " +:+ items_with_commas (e' :: entries)).
    rewrite IH. cbn [fmap list_fmap comma_separated].
    by rewrite !string_app_assoc.
Qed.

(** The legend after it is closed: the items between braces; without any
    item the closing brace takes the place of the opening one. *)
Lemma close_legend_items (valuetxt : string) (entries : list ValLabel) :
  close_legend (valuetxt +:+ ANSI_TAB2 +:+ " {" +:+ items_with_commas entries)
  = valuetxt +:+ ANSI_TAB2
      +:+ match entries with
          | [] => "}"
          | _ => " {" +:+ comma_separated (legend_item <$> entries) +:+ "}"
          end.
Proof.
  destruct entries as [|e entries].
  - cbn [items_with_commas]. rewrite string_app_nil_r, <- string_app_assoc.
    rewrite close_legend_app by reflexivity. by rewrite string_app_assoc.
  - rewrite items_with_commas_separated.
    rewrite <- !string_app_assoc. rewrite close_legend_app by reflexivity.
    by rewrite !string_app_assoc.
Qed.

(** The value text of a bit range with labels, with and without [-v]. *)
Lemma strbuf_range_label_text (verbose : bool) (entries : list ValLabel)
    (sentinel : ValLabel) (regval firstbit numbits : Z) (valuetxt : string) :
  Forall (fun e => 0 <= val e) entries -> val sentinel < 0 ->
  scan_labels (entries ++ [sentinel])
    (field_value regval firstbit (field_mask numbits)) None = Some valuetxt ->
  strbuf_range_label verbose regval firstbit numbits (entries ++ [sentinel])
  = if verbose then
      if (String.length (valuetxt +:+ ANSI_TAB2 +:+ " {"
                           +:+ items_with_commas entries) <? 128)%nat
      then Some (close_legend (valuetxt +:+ ANSI_TAB2 +:+ " {"
                                 +:+ items_with_commas entries))
      else None
    else if (String.length valuetxt <? 128)%nat then Some valuetxt else None.
Proof.
  intros Hpos Hneg Hscan. unfold strbuf_range_label. rewrite Hscan.
  cbn [mbind option_bind].
  assert (Hfirst : sprintf_append EmptyString valuetxt
                   = if (String.length valuetxt <? 128)%nat
                     then Some valuetxt else None) by reflexivity.
  rewrite Hfirst. clear Hfirst.
  destruct verbose.
  - destruct (Nat.ltb_spec (String.length valuetxt) 128) as [Hv|Hv];
      cbn [mbind option_bind].
    + destruct (Nat.ltb_spec (String.length (valuetxt +:+ ANSI_TAB2 +:+ " {")) 128)
        as [Hopen|Hopen].
      * rewrite sprintf_append_fits by done. cbn [mbind option_bind].
        rewrite (legend_loop_entries sentinel [] entries Hpos Hneg) by done.
        rewrite !string_app_assoc.
        by destruct (String.length _ <? 128)%nat.
      * rewrite sprintf_append_overflow by done. cbn [mbind option_bind].
        destruct (Nat.ltb_spec
                    (String.length (valuetxt +:+ ANSI_TAB2 +:+ " {"
                                      +:+ items_with_commas entries)) 128)
          as [Hfit|_]; [|reflexivity].
        rewrite <- !string_app_assoc, string_length_app in Hfit.
        rewrite <- string_app_assoc in Hopen. lia.
    + destruct (Nat.ltb_spec
                  (String.length (valuetxt +:+ ANSI_TAB2 +:+ " {"
                                    +:+ items_with_commas entries)) 128)
        as [Hfit|_]; [|reflexivity].
      rewrite string_length_app in Hfit. lia.
  - by destruct (Nat.ltb_spec (String.length valuetxt) 128).
Qed.

(** X17.  With [-v] the value text of a field with labels is the label
    found, the column escape and the legend: the items [value="label"] of
    all entries before the closing one, in the order of the table,
    separated by a comma and a blank, between braces.  For a table without
    such an entry the legend is the closing brace alone.  When the text
    before the legend is closed does not fit the 128 bytes of the buffer
    with its end mark, the buffer is overrun.  Without [-v] the value text
    is the label. *)
Theorem legend_of_table (entries : list ValLabel) (sentinel : ValLabel)
    (regval firstbit numbits : Z) (valuetxt : string) :
  Forall (fun e => 0 <= val e) entries -> val sentinel < 0 ->
  scan_labels (entries ++ [sentinel])
    (field_value regval firstbit (field_mask numbits)) None = Some valuetxt ->
  ((String.length (valuetxt +:+ ANSI_TAB2 +:+ " {" +:+ items_with_commas entries)
    < 128)%nat ->
   strbuf_range_label true regval firstbit numbits (entries ++ [sentinel])
   = Some (valuetxt +:+ ANSI_TAB2
             +:+ match entries with
                 | [] => "}"
                 | _ => " {" +:+ comma_separated (legend_item <$> entries) +:+ "}"
                 end))
  /\ ((128 <= String.length (valuetxt +:+ ANSI_TAB2 +:+ " {"
                               +:+ items_with_commas entries))%nat ->
      strbuf_range_label true regval firstbit numbits (entries ++ [sentinel]) = None)
  /\ ((String.length valuetxt < 128)%nat ->
      strbuf_range_label false regval firstbit numbits (entries ++ [sentinel])
      = Some valuetxt).
Proof.
  intros Hpos Hneg Hscan.
  split; [|split]; intros Hlen;
    rewrite (strbuf_range_label_text _ entries sentinel regval firstbit numbits
               valuetxt Hpos Hneg Hscan).
  - rewrite (proj2 (Nat.ltb_lt _ _) Hlen). by rewrite close_legend_items.
  - by rewrite (proj2 (Nat.ltb_ge _ _) Hlen).
  - by rewrite (proj2 (Nat.ltb_lt _ _) Hlen).
Qed.

(** The first entry of the README screenshot with a legend: bits 12 to 14
    of register 0 at 0x2004. *)
Lemma legend_of_table_witness :
  Forall (fun e => 0 <= val e)
    [VL 0 "44.1 kHz"; VL 2 "48 kHz"; VL 3 "32 kHz"; VL 6 "96 kHz"]
  /\ val (VL (-1) "Reserved") < 0
  /\ strbuf_range_label true 0x2004 12 3 SPDIF_OUT_HZ
     = Some ("48 kHz" +:+ ANSI_TAB2 +:+ " {"
               +:+ "0=" +:+ dquote +:+ "44.1 kHz" +:+ dquote +:+ ", "
               +:+ "2=" +:+ dquote +:+ "48 kHz" +:+ dquote +:+ ", "
               +:+ "3=" +:+ dquote +:+ "32 kHz" +:+ dquote +:+ ", "
               +:+ "6=" +:+ dquote +:+ "96 kHz" +:+ dquote +:+ "}").
Proof.
  assert (H1 : Forall (fun e => 0 <= val e)
                 [VL 0 "44.1 kHz"; VL 2 "48 kHz"; VL 3 "32 kHz"; VL 6 "96 kHz"])
    by (repeat constructor; cbn; lia).
  assert (H2 : val (VL (-1) "Reserved") < 0) by (cbn; lia).
  split; [exact H1|]. split; [exact H2|].
  exact (proj1 (legend_of_table
                  [VL 0 "44.1 kHz"; VL 2 "48 kHz"; VL 3 "32 kHz"; VL 6 "96 kHz"]
                  (VL (-1) "Reserved") 0x2004 12 3 "48 kHz" H1 H2 eq_refl)
           ltac:(vm_compute; lia)).
Defined.

(** The label found is the label of an entry of the table. *)
Lemma scan_labels_member (entries : list ValLabel) (sentinel : ValLabel) (x : Z) :
  Forall (fun e => 0 <= val e) entries -> val sentinel < 0 ->
  exists e, e ∈ entries ++ [sentinel]
    /\ scan_labels (entries ++ [sentinel]) x None = Some (label e).
Proof.
  intros Hpos Hneg. rewrite (scan_labels_entries sentinel [] x entries Hpos Hneg).
  destruct (after_entries x None entries) as [txt|] eqn:Hafter; cbn.
  - destruct (after_entries_label x entries None txt Hafter)
      as [Hnone|(e & Hin & ->)]; [discriminate Hnone|].
    exists e. split; [|reflexivity]. apply elem_of_app. by left.
  - exists sentinel. split; [|reflexivity].
    apply elem_of_app. right. by apply list_elem_of_singleton.
Qed.

(** Checks that the value texts of a concrete table fit the buffer. *)
Ltac table_fits T :=
  let entries := eval cbv in (removelast T) in
  let sentinel := eval cbv in (List.last T (VL 0 EmptyString)) in
  let Hpos := fresh "Hpos" in
  let Hneg := fresh "Hneg" in
  let Hin := fresh "Hin" in
  let Hscan := fresh "Hscan" in
  let e := fresh "e" in
  intros verbose regval firstbit numbits;
  change T with (entries ++ [sentinel]);
  assert (Hpos : Forall (fun e => 0 <= val e) entries)
    by (repeat constructor; cbn; lia);
  assert (Hneg : val sentinel < 0) by (cbn; lia);
  destruct (scan_labels_member entries sentinel
              (field_value regval firstbit (field_mask numbits)) Hpos Hneg)
    as (e & Hin & Hscan);
  rewrite (strbuf_range_label_text verbose entries sentinel regval firstbit
             numbits (label e) Hpos Hneg Hscan);
  cbn [app] in Hin;
  repeat (apply elem_of_cons in Hin as [->|Hin]);
    [..|by apply elem_of_nil in Hin];
  destruct verbose; vm_compute; eauto.

(** X18.  For each of the six tables of the program, for every raw value
    and with or without [-v], the value text of the field fits the 128
    bytes of the buffer: the legends of the program never overrun it. *)
Theorem legends_of_the_program_fit :
  Forall (fun labels =>
            forall (verbose : bool) (regval firstbit numbits : Z),
              is_Some (strbuf_range_label verbose regval firstbit numbits labels))
    label_tables.
Proof.
  unfold label_tables.
  repeat match goal with
         | |- Forall _ (?T :: _) => constructor; [table_fits T|]
         end.
  constructor.
Qed.

(** The value text of a single bit, with and without [-v]. *)
Lemma strbuf_bit_txt_text (verbose : bool) (regval bit : Z) (ontxt offtxt : string) :
  0 <= bit ->
  strbuf_bit_txt verbose regval bit ontxt offtxt
  = let statetxt := if Z.testbit regval bit then ontxt else offtxt in
    if verbose then
      if (String.length statetxt + 18 + String.length offtxt + String.length ontxt
          <? 128)%nat
      then Some (statetxt +:+ ANSI_TAB2 +:+ " {0=" +:+ dquote +:+ offtxt +:+ dquote
                   +:+ ", 1=" +:+ dquote +:+ ontxt +:+ dquote +:+ "}")
      else None
    else if (String.length statetxt <? 128)%nat then Some statetxt else None.
Proof.
  intros Hbit. unfold strbuf_bit_txt. rewrite bit_value_testbit by done.
  cbn zeta.
  replace (if negb (Z.b2z (Z.testbit regval bit) =? 0) then ontxt else offtxt)
    with (if Z.testbit regval bit then ontxt else offtxt)
    by (by destruct (Z.testbit regval bit)).
  set (statetxt := if Z.testbit regval bit then ontxt else offtxt).
  assert (Hfirst : sprintf_append EmptyString statetxt
                   = if (String.length statetxt <? 128)%nat
                     then Some statetxt else None) by reflexivity.
  rewrite Hfirst. clear Hfirst.
  destruct verbose; [|by destruct (String.length statetxt <? 128)%nat].
  assert (Hlen : String.length
            (statetxt +:+ ANSI_TAB2 +:+ " {0=" +:+ dquote +:+ offtxt +:+ dquote
               +:+ ", 1=" +:+ dquote +:+ ontxt +:+ dquote +:+ "}")
          = (String.length statetxt + 18 + String.length offtxt
             + String.length ontxt)%nat).
  { rewrite !string_length_app. cbn [String.length ANSI_TAB2 dquote]. lia. }
  destruct (Nat.ltb_spec (String.length statetxt) 128) as [Hs|Hs];
    cbn [mbind option_bind].
  - unfold sprintf_append. by rewrite Hlen.
  - by destruct (Nat.ltb_spec
      (String.length statetxt + 18 + String.length offtxt + String.length ontxt) 128);
      [lia|].
Qed.

(** X19.  The value text of a single bit fits the 128 bytes of its buffer,
    with or without [-v], whenever the on text and the off text have at
    most 36 characters each; with [-v] it is the text of the state, the
    column escape and the legend [{0="off", 1="on"}], which adds 18
    characters to the three texts. *)
Theorem bit_legend_fits (verbose : bool) (regval bit : Z) (ontxt offtxt : string) :
  0 <= bit ->
  (String.length ontxt <= 36)%nat -> (String.length offtxt <= 36)%nat ->
  strbuf_bit_txt verbose regval bit ontxt offtxt
  = Some (if verbose
          then (if Z.testbit regval bit then ontxt else offtxt)
                 +:+ ANSI_TAB2 +:+ " {0=" +:+ dquote +:+ offtxt +:+ dquote
                 +:+ ", 1=" +:+ dquote +:+ ontxt +:+ dquote +:+ "}"
          else if Z.testbit regval bit then ontxt else offtxt).
Proof.
  intros Hbit Hon Hoff. rewrite strbuf_bit_txt_text by done. cbn zeta.
  assert (Hs : (String.length (if Z.testbit regval bit then ontxt else offtxt)
                <= 36)%nat) by (by destruct (Z.testbit regval bit)).
  destruct verbose.
  - by destruct (Nat.ltb_spec
      (String.length (if Z.testbit regval bit then ontxt else offtxt) + 18
       + String.length offtxt + String.length ontxt) 128); [|lia].
  - by destruct (Nat.ltb_spec
      (String.length (if Z.testbit regval bit then ontxt else offtxt)) 128); [|lia].
Qed.

(** The longest pair of texts of the program, on bit 1 of register 0. *)
Lemma bit_legend_fits_witness :
  0 <= 1
  /\ (String.length "non-PCM (e.g. AC3)" <= 36)%nat
  /\ (String.length "PCM" <= 36)%nat
  /\ strbuf_bit_txt true 0x2004 1 "non-PCM (e.g. AC3)" "PCM"
     = Some ("PCM" +:+ ANSI_TAB2 +:+ " {0=" +:+ dquote +:+ "PCM" +:+ dquote
               +:+ ", 1=" +:+ dquote +:+ "non-PCM (e.g. AC3)" +:+ dquote +:+ "}").
Proof.
  assert (H1 : 0 <= 1) by lia.
  assert (H2 : (String.length "non-PCM (e.g. AC3)" <= 36)%nat) by (cbn; lia).
  assert (H3 : (String.length "PCM" <= 36)%nat) by (cbn; lia).
  split; [exact H1|]. split; [exact H2|]. split; [exact H3|].
  exact (bit_legend_fits true 0x2004 1 "non-PCM (e.g. AC3)" "PCM" H1 H2 H3).
Defined.

(* ===================================================================== *)
(** * The order of the commands in [main] *)

(** X20.  On a codec that keeps what is written to it, a run with [-INIT]
    and a write command initializes first and writes then: the masked value
    is computed from the initialization value of the register, which was
    read back in between, and the codec ends with the initialization values
    and that one register changed. *)
Theorem init_then_write_on_register_file (regs : list Z) (cfg : config) (reg : nat) :
  length regs = NUM_REGS -> Forall is_u16 regs ->
  (reg < NUM_REGS)%nat -> cfg_reg cfg = Z.of_nat reg ->
  cfg_cmdInit cfg = true -> cfg_cmdWrite cfg = true ->
  exists out t,
    main_commands cfg (register_file regs) [] = Ret out t
    /\ hw_regs regs t = out_regbuf out
    /\ out_regbuf out
       = <[reg := newvalue (default 0 (REG_INIT !! reg)) (cfg_mask cfg)
                    (cfg_writeVal cfg)]> REG_INIT.
Proof.
  intros Hlen Hu16 Hreg Hcfg Hinit Hwrite.
  set (new := newvalue (default 0 (REG_INIT !! reg)) (cfg_mask cfg) (cfg_writeVal cfg)).
  assert (Hu_init : Forall is_u16 REG_INIT)
    by (repeat constructor; unfold is_u16; lia).
  destruct (register_file_refresh regs regs [0; 0; 0; 0; 0; 0] [] eq_refl Hlen Hu16
              eq_refl) as (t1 & Hrun1 & Hhw1).
  assert (Hloop : for_regs (init_register (register_file regs)) 0 NUM_REGS regs t1
                  = Ret regs (t1 ++ init_writes NUM_REGS)).
  { apply init_loop_ok. intros n Hn. unfold NUM_REGS in Hn.
    do 6 (destruct n as [|n]; [reflexivity|]). lia. }
  assert (Hhw2 : hw_regs regs (t1 ++ init_writes NUM_REGS) = REG_INIT).
  { unfold hw_regs in *. rewrite foldl_app, Hhw1.
    do 7 (destruct regs as [|? regs]; try discriminate Hlen). reflexivity. }
  destruct (register_file_refresh regs REG_INIT regs _ Hhw2 eq_refl Hu_init Hlen)
    as (t3 & Hrun3 & Hhw3).
  destruct (register_file_write regs reg new t3 ltac:(unfold NUM_REGS in Hreg; lia)
              (u16_range _)) as (Hwr & Hhw4).
  rewrite Hhw3 in Hhw4.
  destruct (register_file_refresh regs (<[reg := new]> REG_INIT) REG_INIT _ Hhw4) as
    (t5 & Hrun5 & Hhw5);
    [by rewrite length_insert|by apply Forall_insert; [|apply u16_range]|reflexivity|].
  eexists (Output (<[reg := new]> REG_INIT) _ _), t5.
  split; [|split; [exact Hhw5|reflexivity]].
  unfold main_commands, mbind, io_bind, bind, mret, io_ret, ret.
  rewrite Hrun1, Hinit, Hwrite, Hcfg, Nat2Z.id.
  unfold cmd_init, mbind, io_bind, bind. rewrite Hloop, Hrun3.
  unfold cmd_write, mbind, io_bind, bind. fold new.
  rewrite Hwr. cbn [Z.ltb Z.compare]. rewrite Hrun5. reflexivity.
Qed.

(** [-INIT -DMASPDIF] on a codec at its reset values: register 0 ends as
    0xA004, from the initialization value 0x2004. *)
Lemma init_then_write_on_register_file_witness :
  length REG_DEFAULT = NUM_REGS /\ Forall is_u16 REG_DEFAULT
  /\ out_regbuf <$> returned (main_commands
       (Config false false false false 0 true 0x8000 0x8000 true)
       (register_file REG_DEFAULT) [])
     = Some [0xA004; 0x3000; 0xF800; 0x147f; 0x0000; 0x3000].
Proof.
  assert (Hu : Forall is_u16 REG_DEFAULT)
    by (repeat constructor; unfold is_u16; lia).
  split; [reflexivity|]. split; [exact Hu|].
  destruct (init_then_write_on_register_file REG_DEFAULT
              (Config false false false false 0 true 0x8000 0x8000 true) 0
              eq_refl Hu ltac:(unfold NUM_REGS; lia) eq_refl eq_refl eq_refl)
    as (out & t & Hrun & _ & Hout).
  rewrite Hrun. cbn [returned fmap option_fmap option_map]. by rewrite Hout.
Defined.

Lemma init_loop_extends (dev : hid_device) (count : nat) :
  forall (start : nat) (regbuf : list Z) (t : trace),
    exists evs,
      trace_of (for_regs (init_register dev) start count regbuf t) = t ++ evs.
Proof.
  induction count as [|count IH]; intros start regbuf t; cbn [for_regs].
  - exists []. cbn. by rewrite app_nil_r.
  - unfold mbind, io_bind, bind. rewrite init_register_step.
    destruct (_ =? 5).
    + destruct (IH (S start) regbuf (t ++ [Write (init_request start) 5]))
        as [evs Hevs].
      rewrite Hevs, <- app_assoc. by eexists.
    + by eexists.
Qed.

Lemma cmd_init_extends (dev : hid_device) (regbuf : list Z) (t : trace) :
  exists evs, trace_of (cmd_init dev regbuf t) = t ++ evs.
Proof.
  unfold cmd_init, mbind, io_bind, bind.
  destruct (init_loop_extends dev NUM_REGS 0 regbuf t) as [evs Hevs].
  destruct (for_regs (init_register dev) 0 NUM_REGS regbuf t) as [rb t1|st why t1];
    cbn in Hevs; subst t1; [|by eexists].
  destruct (refresh_events dev rb (t ++ evs)) as (evs' & -> & _).
  rewrite <- app_assoc. by eexists.
Qed.

Lemma cmd_write_extends (dev : hid_device) (reg : nat) (writeVal mask : Z)
    (regbuf : list Z) (t : trace) :
  exists evs, trace_of (cmd_write dev reg writeVal mask regbuf t) = t ++ evs.
Proof.
  rewrite cmd_write_sends_masked_value. cbn zeta.
  destruct (_ =? 5); [|by eexists].
  destruct (refresh_events dev regbuf
              (t ++ [Write (write_request (Z.of_nat reg)
                              (newvalue (default 0 (regbuf !! reg)) mask writeVal)) 5]))
    as (evs' & -> & _).
  rewrite <- app_assoc. by eexists.
Qed.

(** X21.  Whatever the command line asks for and whatever the device
    answers, [main] sends a report that sets a register only after it has
    read all six registers with success: either all its reports are read
    requests, or its traffic begins with the twelve events of a refresh
    that returned. *)
Theorem no_write_before_full_refresh (cfg : config) (dev : hid_device) :
  Forall is_read_request (trace_of (main_commands cfg dev []))
  \/ exists (regbuf : list Z) (t0 : trace) (evs : list event),
       readAllRegisters dev [0; 0; 0; 0; 0; 0] [] = Ret regbuf t0
       /\ trace_of (main_commands cfg dev []) = t0 ++ evs
       /\ Forall is_read_request t0
       /\ length t0 = 12%nat.
Proof.
  destruct (refresh_events dev [0; 0; 0; 0; 0; 0] []) as (evs0 & Htrace & Hevs0).
  unfold main_commands, mbind, io_bind, bind, mret, io_ret, ret.
  destruct (readAllRegisters dev [0; 0; 0; 0; 0; 0] []) as [rb t0|st why t0] eqn:Hrun;
    cbn in Htrace; subst t0.
  2:{ left. exact Hevs0. }
  right. exists rb, evs0.
  destruct (refresh_returns dev [0; 0; 0; 0; 0; 0] rb [] evs0 eq_refl Hrun)
    as (_ & _ & Hlen).
  assert (Hext : exists evs,
    trace_of
      match (if cfg_cmdInit cfg then cmd_init dev rb else fun t => Ret rb t) evs0 with
      | Ret a t' =>
          match (if cfg_cmdWrite cfg
                 then cmd_write dev (Z.to_nat (cfg_reg cfg)) (cfg_writeVal cfg)
                        (cfg_mask cfg) a
                 else fun t => Ret a t) t' with
          | Ret a0 t'0 =>
              Ret (Output a0
                     (if cfg_cmdRead cfg
                      then Some (Z.land (default 0 (a0 !! Z.to_nat (cfg_reg cfg)))
                                   (cfg_mask cfg))
                      else None)
                     (if cfg_cmdPrintAll cfg then Some (cmd_print_all a0) else None))
                t'0
          | Exited status why t'0 => Exited status why t'0
          end
      | Exited status why t' => Exited status why t'
      end = evs0 ++ evs).
  { assert (H1 : exists evs1,
              trace_of ((if cfg_cmdInit cfg then cmd_init dev rb
                         else fun t => Ret rb t) evs0) = evs0 ++ evs1).
    { destruct (cfg_cmdInit cfg); [apply cmd_init_extends|].
      exists []. cbn. by rewrite app_nil_r. }
    destruct H1 as [evs1 H1].
    destruct ((if cfg_cmdInit cfg then cmd_init dev rb else fun t => Ret rb t) evs0)
      as [rb1 t1|st why t1]; cbn in H1; subst t1; [|by eexists].
    assert (H2 : exists evs2,
              trace_of ((if cfg_cmdWrite cfg
                         then cmd_write dev (Z.to_nat (cfg_reg cfg)) (cfg_writeVal cfg)
                                (cfg_mask cfg) rb1
                         else fun t => Ret rb1 t) (evs0 ++ evs1))
              = (evs0 ++ evs1) ++ evs2).
    { destruct (cfg_cmdWrite cfg); [apply cmd_write_extends|].
      exists []. cbn. by rewrite app_nil_r. }
    destruct H2 as [evs2 H2].
    destruct ((if cfg_cmdWrite cfg
               then cmd_write dev (Z.to_nat (cfg_reg cfg)) (cfg_writeVal cfg)
                      (cfg_mask cfg) rb1
               else fun t => Ret rb1 t) (evs0 ++ evs1)) as [rb2 t2|st why t2];
      cbn in H2 |- *; subst t2; rewrite <- app_assoc; by eexists. }
  destruct Hext as [evs Hext]. exists evs.
  split; [reflexivity|]. split; [exact Hext|]. split; [exact Hevs0|]. exact Hlen.
Qed.
